(** * genai_PDF_Extractor: table normalisation, cleanup fallback and CSV export

    A shallow embedding of
      - [backend/services/pdf_tables.py]   ([_normalize_table], [extract_tables]),
      - [backend/services/ollama_clean.py] ([clean_tables_with_ollama]),
      - [backend/services/main.py]         ([export_single_csv], [export_all_zip]),
    together with the library behaviour these functions rely on
    ([str.strip], [csv.writer] and [csv.reader] with the default dialect). *)

From Stdlib Require Import List NArith ZArith Arith Bool Lia String Ascii Sorted.
From Stdlib Require Import DecimalString DecimalNat.
Import ListNotations.

Set Warnings "-register-all".

Local Open Scope N_scope.
Local Open Scope list_scope.

(* ================================================================== *)
(** ** Python strings *)

Module PyStr.

(** A Python [str] is a sequence of Unicode code points. *)
Abbreviation char := N (only parsing).
Abbreviation str := (list N) (only parsing).

(** Literals of the development are written as Rocq strings. *)
Definition py (s : string) : str := map N_of_ascii (list_ascii_of_string s).

(** [str.isspace] on one code point: the table of CPython's
    [_PyUnicode_IsWhitespace]. *)
Definition isspace (c : char) : bool :=
  ((9 <=? c) && (c <=? 13)) || ((28 <=? c) && (c <=? 32))
  || (c =? 133) || (c =? 160) || (c =? 5760)
  || ((8192 <=? c) && (c <=? 8202))
  || (c =? 8232) || (c =? 8233) || (c =? 8239) || (c =? 8287) || (c =? 12288).

Fixpoint lstrip (s : str) : str :=
  match s with
  | [] => []
  | c :: r => if isspace c then lstrip r else s
  end.

Definition rstrip (s : str) : str := rev (lstrip (rev s)).

(** [s.strip()] with no argument. *)
Definition strip (s : str) : str := rstrip (lstrip s).

Definition is_empty (s : str) : bool :=
  match s with [] => true | _ => false end.

Definition str_eq_dec : forall a b : str, {a = b} + {a <> b} :=
  list_eq_dec N.eq_dec.

End PyStr.
Import PyStr.

(* ================================================================== *)
(** ** pdf_tables.py *)

(** A raw cell as pdfplumber hands it over: [None] or a [str]
    (for a [str] value [str(c)] is [c] itself). *)
Abbreviation cell := (option str) (only parsing).
Abbreviation raw_row := (list cell) (only parsing).
Abbreviation grid := (list raw_row) (only parsing).

(** The dictionary returned by [_normalize_table]. *)
Record norm := mkNorm { n_headers : list str; n_rows : list (list cell) }.

(** [cell is not None and str(cell).strip() != ''] *)
Definition cell_nonblank (c : cell) : bool :=
  match c with
  | None => false
  | Some s => negb (is_empty (strip s))
  end.

(** [row and any(... for cell in row)] *)
Definition row_nonblank (row : raw_row) : bool :=
  match row with
  | [] => false
  | _ => existsb cell_nonblank row
  end.

(** [str(c).strip() if c is not None else ''] *)
Definition header_cell (c : cell) : str :=
  match c with
  | Some s => strip s
  | None => []
  end.

(** [None if (c is None or str(c).strip() == '') else c] *)
Definition clean_cell (c : cell) : cell :=
  match c with
  | None => None
  | Some s => if is_empty (strip s) then None else c
  end.

(** The [for i, row in enumerate(raw_rows)] loop with its [break]: the
    pair [(headers, data_rows)], both empty when the loop runs out. *)
Fixpoint find_header (raw_rows : grid) : list str * grid :=
  match raw_rows with
  | [] => ([], [])
  | row :: rest =>
      if row_nonblank row then (map header_cell row, rest)
      else find_header rest
  end.

Definition _normalize_table (raw_rows : grid) : norm :=
  let '(headers, data_rows) := find_header raw_rows in
  mkNorm headers (map (map clean_cell) data_rows).

(** The table dictionaries that [extract_tables] appends. *)
Record Table := mkTable {
  page : nat;
  table_index : nat;
  headers : list str;
  rows : list (list cell)
}.

(** What was asked of a page: [page.extract_tables(table_settings=...)]
    (the line strategy) or [page.extract_tables()] (library defaults). *)
Inductive strategy := Lines | Defaults.

(** A page answers each call with [None] or a list of raw grids. *)
Record Page := mkPage {
  lines_tables : option (list grid);
  default_tables : option (list grid)
}.

Definition page_extract_tables (p : Page) (s : strategy) : option (list grid) :=
  match s with
  | Lines => lines_tables p
  | Defaults => default_tables p
  end.

(** [x or []] *)
Definition or_nil {A} (x : option (list A)) : list A :=
  match x with Some l => l | None => [] end.

(** Lines 44-46 of [extract_tables], with the calls made on the page
    recorded in order. *)
Definition raw_tables_of (p : Page) : list strategy * list grid :=
  let raw_tables := or_nil (page_extract_tables p Lines) in
  match raw_tables with
  | [] => ([Lines; Defaults], or_nil (page_extract_tables p Defaults))
  | _ => ([Lines], raw_tables)
  end.

(** [for t_idx, raw in enumerate(raw_tables)] from index [t_idx]. *)
Fixpoint tables_from (p_idx t_idx : nat) (raws : list grid) : list Table :=
  match raws with
  | [] => []
  | raw :: rest =>
      let norm := _normalize_table raw in
      mkTable p_idx t_idx (n_headers norm) (n_rows norm)
      :: tables_from p_idx (S t_idx) rest
  end.

Definition tables_of_page (p_idx : nat) (p : Page) : list Table :=
  tables_from p_idx 0 (snd (raw_tables_of p)).

(** [for p_idx, page in enumerate(pdf.pages, start=...)] *)
Fixpoint pages_from (p_idx : nat) (pages : list Page) : list Table :=
  match pages with
  | [] => []
  | p :: rest => tables_of_page p_idx p ++ pages_from (S p_idx) rest
  end.

Definition extract_tables (pdf_pages : list Page) : list Table :=
  pages_from 1 pdf_pages.


(* ================================================================== *)
(** ** ollama_clean.py *)


(** Python values as [json.loads] builds them and [json.dumps] reads
    them: [None], [bool], [int], [float] (kept as its lexeme), [str],
    [list] and [dict]. *)
Inductive json :=
| JNull
| JBool (b : bool)
| JInt (z : Z)
| JFloat (lexeme : str)
| JStr (s : str)
| JArr (items : list json)
| JObj (fields : list (str * json)).

(** The exceptions that can leave the [try] block. *)
Inductive exn :=
| TransportError      (* httpx: connection refused, timeout, ... *)
| HTTPStatusError     (* resp.raise_for_status() *)
| JSONDecodeError     (* resp.json(), json.loads *)
| AttributeError.     (* .get on a non-dict, .strip on a non-str *)

(** A computation that returns or raises. *)
Inductive res (A : Type) :=
| Ret (a : A)
| Raise (e : exn).
Arguments Ret {A} a.
Arguments Raise {A} e.

Definition bind {A B} (m : res A) (k : A -> res B) : res B :=
  match m with
  | Ret a => k a
  | Raise e => Raise e
  end.

Notation "x <- m ;; k" := (bind m (fun x => k))
  (at level 61, m at next level, right associativity).

(** What [await client.post(...)] does: it raises, or it returns a
    response with a status code and a body. *)
Inductive post_outcome :=
| PostRaises
| PostReturns (status_code : Z) (body : str).

Record Response := mkResponse { r_status : Z; r_body : str }.

Definition client_post (o : post_outcome) : res Response :=
  match o with
  | PostRaises => Raise TransportError
  | PostReturns s b => Ret (mkResponse s b)
  end.

(** httpx: [Response.is_success] is [200 <= status_code <= 299]. *)
Definition is_success (status_code : Z) : bool :=
  ((200 <=? status_code) && (status_code <=? 299))%Z.

Definition raise_for_status (r : Response) : res unit :=
  if is_success (r_status r) then Ret tt else Raise HTTPStatusError.

(** [dict.get(key, default)] on the key/value list of a [dict]. *)
Fixpoint dict_get (fields : list (str * json)) (key : str) (default : json) : json :=
  match fields with
  | [] => default
  | (k, v) :: rest => if str_eq_dec k key then v else dict_get rest key default
  end.

(** [data.get(key, default)]: only a [dict] has the method. *)
Definition py_get (data : json) (key : str) (default : json) : res json :=
  match data with
  | JObj fields => Ret (dict_get fields key default)
  | _ => Raise AttributeError
  end.

(** [v.strip()]: only a [str] has the method. *)
Definition py_strip (v : json) : res str :=
  match v with
  | JStr s => Ret (strip s)
  | _ => Raise AttributeError
  end.

(** A table dictionary as a Python value. *)
Definition cell_json (c : cell) : json :=
  match c with
  | None => JNull
  | Some s => JStr s
  end.

Definition table_dict (t : Table) : json :=
  JObj [ (py "page", JInt (Z.of_nat (page t)));
         (py "table_index", JInt (Z.of_nat (table_index t)));
         (py "headers", JArr (map JStr (headers t)));
         (py "rows", JArr (map (fun r => JArr (map cell_json r)) (rows t))) ].

Section Cleanup.

(** The JSON decoder of the standard library, [None] when it raises
    [JSONDecodeError]. *)
Variable loads : str -> option json.

Definition json_loads (text : str) : res json :=
  match loads text with
  | Some v => Ret v
  | None => Raise JSONDecodeError
  end.

(** The body of the [try] block, from [client.post] on: building the
    prompt out of the tables comes first and has no part in the result;
    [reply] is what the service does with that request. *)
Definition try_clean (reply : post_outcome) (tables : list json) : res (list json) :=
  resp <- client_post reply ;;
  _ <- raise_for_status resp ;;
  data <- json_loads (r_body resp) ;;
  v <- py_get data (py "response") (JStr []) ;;
  text <- py_strip v ;;
  cleaned <- json_loads text ;;
  match cleaned with
  | JArr items => Ret items
  | _ => Ret tables
  end.

(** [try: ... except Exception: return tables] *)
Definition clean_tables_with_ollama (reply : post_outcome) (tables : list json)
  : list json :=
  match try_clean reply tables with
  | Ret v => v
  | Raise _ => tables
  end.

End Cleanup.

(** Whether a Python value is a [dict] carrying the four fields of a
    table. *)
Definition has_key (fields : list (str * json)) (key : str) : bool :=
  existsb (fun kv => if str_eq_dec (fst kv) key then true else false) fields.

Definition table_shaped (v : json) : bool :=
  match v with
  | JObj fields =>
      has_key fields (py "page") && has_key fields (py "table_index")
      && has_key fields (py "headers") && has_key fields (py "rows")
  | _ => false
  end.

(* ================================================================== *)
(** ** The csv module, default dialect *)

Module Csv.

(** [csv.excel]: [delimiter=','], [quotechar] the double quote, [doublequote=True],
    [skipinitialspace=False], [lineterminator='\r\n'],
    [quoting=QUOTE_MINIMAL], no [escapechar], not [strict]. *)
Definition delimiter : char := 44.
Definition quotechar : char := 34.
Definition CR : char := 13.
Definition LF : char := 10.
Definition lineterminator : str := [CR; LF].

(** *** Writer ([join_append_data], [join_append], [csv_writerow]) *)

(** The characters that make a field quoted. *)
Definition special (c : char) : bool :=
  (c =? delimiter) || (c =? quotechar) || existsb (N.eqb c) lineterminator.

(** The characters copied for a field: a quote character is doubled. *)
Definition escape (field : str) : str :=
  flat_map (fun c => if c =? quotechar then [quotechar; c] else [c]) field.

(** [join_append(self, field, quoted)] on the record buffer [rec] holding
    [num_fields] fields. *)
Definition join_append (rec : str) (num_fields : nat) (field : str) (quoted : bool)
  : str :=
  let rec := if (0 <? num_fields)%nat then rec ++ [delimiter] else rec in
  if quoted || existsb special field
  then rec ++ [quotechar] ++ escape field ++ [quotechar]
  else rec ++ escape field.

(** The loop of [csv_writerow] over the fields of the row. *)
Fixpoint join_fields (rec : str) (num_fields : nat) (row : list str) : str * nat :=
  match row with
  | [] => (rec, num_fields)
  | f :: rest => join_fields (join_append rec num_fields f false) (S num_fields) rest
  end.

(** The text that one [writer.writerow(row)] writes: a row made of one
    empty field is written as a quoted empty field. *)
Definition writerow (row : list str) : str :=
  let '(rec, num_fields) := join_fields [] 0 row in
  let rec :=
    if (0 <? num_fields)%nat && (List.length rec =? 0)%nat
    then join_append [] (num_fields - 1) [] true
    else rec in
  rec ++ lineterminator.

(** *** Reader ([parse_process_char], [Reader_iternext])

    The state machine of [csv.reader] for the same dialect.  The states
    [ESCAPED_CHAR], [ESCAPE_IN_QUOTED_FIELD] and [AFTER_ESCAPED_CRNL] are
    entered on the escape character only, which the dialect does not
    have.  The configurable [field_size_limit] is not part of the model:
    fields are taken to be within it. *)
Inductive ParserState :=
| START_RECORD
| START_FIELD
| IN_FIELD
| IN_QUOTED_FIELD
| QUOTE_IN_QUOTED_FIELD
| EAT_CRNL.

Record ReaderObj := mkReader {
  state : ParserState;
  field : str;              (* the field being collected *)
  fields : list str         (* the fields of the record so far *)
}.

(** What the machine is fed: a character of the line, or the end of the
    line. *)
Inductive input := Ch (c : char) | EOL.

Definition set_state (s : ParserState) (r : ReaderObj) : ReaderObj :=
  mkReader s (field r) (fields r).

Definition parse_add_char (r : ReaderObj) (c : char) : ReaderObj :=
  mkReader (state r) (field r ++ [c]) (fields r).

Definition parse_save_field (r : ReaderObj) : ReaderObj :=
  mkReader (state r) [] (fields r ++ [field r]).

Definition parse_reset : ReaderObj := mkReader START_RECORD [] [].

Definition is_newline (c : char) : bool := (c =? LF) || (c =? CR).

(** The case [START_FIELD], also reached from [START_RECORD]. *)
Definition start_field (r : ReaderObj) (i : input) : option ReaderObj :=
  match i with
  | EOL => Some (set_state START_RECORD (parse_save_field r))
  | Ch c =>
      if is_newline c then Some (set_state EAT_CRNL (parse_save_field r))
      else if c =? quotechar then Some (set_state IN_QUOTED_FIELD r)
      else if c =? delimiter then Some (parse_save_field r)
      else Some (set_state IN_FIELD (parse_add_char r c))
  end.

(** [parse_process_char]; [None] stands for [csv.Error]. *)
Definition parse_process_char (r : ReaderObj) (i : input) : option ReaderObj :=
  match state r with
  | START_RECORD =>
      match i with
      | EOL => Some r
      | Ch c =>
          if is_newline c then Some (set_state EAT_CRNL r)
          else start_field (set_state START_FIELD r) i
      end
  | START_FIELD => start_field r i
  | IN_FIELD =>
      match i with
      | EOL => Some (set_state START_RECORD (parse_save_field r))
      | Ch c =>
          if is_newline c then Some (set_state EAT_CRNL (parse_save_field r))
          else if c =? delimiter then Some (set_state START_FIELD (parse_save_field r))
          else Some (parse_add_char r c)
      end
  | IN_QUOTED_FIELD =>
      match i with
      | EOL => Some r
      | Ch c =>
          if c =? quotechar then Some (set_state QUOTE_IN_QUOTED_FIELD r)
          else Some (parse_add_char r c)
      end
  | QUOTE_IN_QUOTED_FIELD =>
      match i with
      | EOL => Some (set_state START_RECORD (parse_save_field r))
      | Ch c =>
          if c =? quotechar then Some (set_state IN_QUOTED_FIELD (parse_add_char r c))
          else if c =? delimiter then Some (set_state START_FIELD (parse_save_field r))
          else if is_newline c then Some (set_state EAT_CRNL (parse_save_field r))
          else Some (set_state IN_FIELD (parse_add_char r c))
      end
  | EAT_CRNL =>
      match i with
      | EOL => Some (set_state START_RECORD r)
      | Ch c => if is_newline c then Some r else None
      end
  end.

(** The characters of one line, in order. *)
Fixpoint process_line (r : ReaderObj) (line : str) : option ReaderObj :=
  match line with
  | [] => Some r
  | c :: rest =>
      match parse_process_char r (Ch c) with
      | None => None
      | Some r' => process_line r' rest
      end
  end.

(** [list(csv.reader(lines))]: [Reader_iternext] called until the lines
    run out; a record is complete when a line ends in [START_RECORD]. *)
Fixpoint read_all (r : ReaderObj) (lines : list str) : option (list (list str)) :=
  match lines with
  | [] =>
      match state r, field r with
      | IN_QUOTED_FIELD, _ | _, _ :: _ => Some [fields (parse_save_field r)]
      | _, [] => Some []
      end
  | line :: rest =>
      match process_line r line with
      | None => None
      | Some r1 =>
          match parse_process_char r1 EOL with
          | None => None
          | Some r2 =>
              match state r2 with
              | START_RECORD =>
                  option_map (cons (fields r2)) (read_all parse_reset rest)
              | _ => read_all r2 rest
              end
          end
      end
  end.

Definition reader (lines : list str) : option (list (list str)) :=
  read_all parse_reset lines.

(** The lines of an [io.StringIO] over [text]: each ends after its
    line feed, which it keeps; a last line without one is a line too. *)
Fixpoint readlines (text : str) : list str :=
  match text with
  | [] => []
  | c :: rest =>
      if c =? LF then [c] :: readlines rest
      else match readlines rest with
           | [] => [[c]]
           | l :: ls => (c :: l) :: ls
           end
  end.

End Csv.

(* ================================================================== *)
(** ** main.py: the CSV exports *)


(** The decimal digits that an f-string writes for a non-negative [int]. *)
Definition decimal (n : nat) : str := py (NilEmpty.string_of_uint (Nat.to_uint n)).

(** An upload record, with [result_json] already decoded
    ([json.loads(rec.result_json) if rec.result_json else []]). *)
Record UploadRecord := mkUpload { uid : str; stored_tables : list Table }.

(** [['' if (c is None) else c for c in r]] *)
Definition csv_cell (c : cell) : str :=
  match c with
  | None => []
  | Some s => s
  end.

(** The writes made on the [StringIO] for one table:
    [if headers: writer.writerow(headers)], then one [writerow] per row. *)
Definition write_table (out : str) (t : Table) : str :=
  let out :=
    match headers t with
    | [] => out
    | _ => out ++ Csv.writerow (headers t)
    end in
  fold_left (fun out r => out ++ Csv.writerow (map csv_cell r)) (rows t) out.

(** [output.getvalue()] of a fresh [StringIO] after these writes. *)
Definition csv_text (t : Table) : str := write_table [] t.

(** [next((t for t in tables if t.get('page') == page and
    t.get('table_index') == table_index), None)] *)
Definition find_table (tables : list Table) (pg ti : nat) : option Table :=
  find (fun t => (page t =? pg)%nat && (table_index t =? ti)%nat) tables.

Inductive http (A : Type) :=
| HTTP404 (detail : str)
| OK (a : A).
Arguments HTTP404 {A} detail.
Arguments OK {A} a.

(** A file sent back: its name and its content. *)
Abbreviation file := (str * str)%type (only parsing).

Definition export_single_csv (rec : option UploadRecord) (pg ti : nat) : http file :=
  match rec with
  | None => HTTP404 (py "Not found")
  | Some rec =>
      match find_table (stored_tables rec) pg ti with
      | None => HTTP404 (py "Table not found for given page and table_index")
      | Some target =>
          OK (py "tables_" ++ uid rec ++ py "_p" ++ decimal pg ++ py "_t"
                ++ decimal ti ++ py ".csv",
              csv_text target)
      end
  end.

(** The archive is the list of its members, in the order of the
    [zf.writestr] calls. *)
Definition zip_member (t : Table) : file :=
  (py "page_" ++ decimal (page t) ++ py "_table_" ++ decimal (table_index t)
     ++ py ".csv",
   csv_text t).

Definition export_all_zip (rec : option UploadRecord) : http (list file) :=
  match rec with
  | None => HTTP404 (py "Not found")
  | Some rec => OK (map zip_member (stored_tables rec))
  end.

(** Modelled from the spec: re-parsing the CSV (header + rows).  The
    text is read back with [csv.reader]; the first record is the header
    row and the records after it are the data rows; a text without
    records has neither. *)
Definition reparse (text : str) : option (list str * list (list str)) :=
  match Csv.reader (Csv.readlines text) with
  | None => None
  | Some [] => Some ([], [])
  | Some (h :: rs) => Some (h, rs)
  end.

(* ================================================================== *)
(** ** main.py: the upload *)

(** [s.endswith(suffix)] *)
Definition endswith (s suffix : str) : bool :=
  if str_eq_dec (skipn (List.length s - List.length suffix) s) suffix
  then true else false.

(** The steps of [upload_pdf] that ran to their end, in order: the
    uploaded bytes were saved, the extraction returned its tables, the
    cleanup function was called and returned, the record was added and
    committed. *)
Inductive effect := WriteBytes | ExtractTables | CallOllama | AddRecord.

(** The record built by [upload_pdf]; [result_json] is kept as the value
    that [json.dumps] is given. *)
Record NewUpload := mkNewUpload {
  up_id : str;
  up_filename : str;
  up_use_llm : bool;
  up_table_count : nat;
  up_result : list json
}.

Inductive upload_result :=
| Rejected (status_code : nat) (detail : str)   (* HTTPException *)
| Unreadable                                    (* extract_tables raised *)
| Stored (rec : NewUpload)
| SaveFailed                  (* file.read() or save_path.write_bytes raised *)
| CommitFailed.               (* session.add or session.commit raised *)

Section Upload.

(** [str.lower], the JSON decoder, and what the world answers: whether
    the uploaded bytes could be read and written under the uploads
    directory ([saved]; a file name with a path separator or one that is
    too long makes the write raise), the pages of the saved file ([None]
    when the extraction raises), the reply of the cleanup service, and
    whether the session took the record ([committed]).  Whatever raises
    ends the request there. *)
Variable lower : str -> str.
Variable loads : str -> option json.

(** [if use_llm and tables: tables = await clean_tables_with_ollama(tables)] *)
Definition maybe_clean (use_llm : bool) (reply : post_outcome) (tables : list json)
  : list effect * list json :=
  match use_llm, tables with
  | true, _ :: _ => ([CallOllama], clean_tables_with_ollama loads reply tables)
  | _, _ => ([], tables)
  end.

Definition upload_pdf (filename : str) (use_llm : bool) (uid : str)
  (saved : bool) (opened : option (list Page)) (reply : post_outcome)
  (committed : bool)
  : list effect * upload_result :=
  if negb (endswith (lower filename) (py ".pdf"))
  then ([], Rejected 400 (py "Only PDF files are supported"))
  else if negb saved then ([], SaveFailed)
  else
    match opened with
    | None => ([WriteBytes], Unreadable)
    | Some pages =>
        let tables := map table_dict (extract_tables pages) in
        let '(called, tables) := maybe_clean use_llm reply tables in
        if committed
        then ([WriteBytes; ExtractTables] ++ called ++ [AddRecord],
              Stored (mkNewUpload uid filename use_llm (List.length tables) tables))
        else ([WriteBytes; ExtractTables] ++ called, CommitFailed)
    end.

End Upload.

(* ================================================================== *)
(** ** Vocabulary of the statements *)

(** [row] is the topmost row of [raw] with a cell whose trimmed content
    is not blank, and it sits at index [i]. *)
Definition header_at (raw : grid) (i : nat) (row : raw_row) : Prop :=
  nth_error raw i = Some row
  /\ (exists c s, In c row /\ c = Some s /\ strip s <> [])
  /\ (forall j r c s, (j < i)%nat -> nth_error raw j = Some r ->
                      In c r -> c = Some s -> strip s = []).

(** No row of [raw] has a cell whose trimmed content is not blank. *)
Definition all_blank (raw : grid) : Prop :=
  forall r c s, In r raw -> In c r -> c = Some s -> strip s = [].

(** The data cell that the specification describes: absent or blank
    gives the absence marker, anything else its trimmed content. *)
Definition spec_clean_cell (c : cell) : cell :=
  match c with
  | None => None
  | Some s => if is_empty (strip s) then None else Some (strip s)
  end.

(** Every row of the grid has the same number of cells: what the pages
    hand over, the rows of a table being cut along one list of columns
    for the whole table. *)
Definition rectangular (g : grid) : Prop :=
  exists n, Forall (fun r => List.length r = n) g.

(** The grids a page can hand over, whatever the strategy. *)
Definition page_grids (p : Page) : list grid :=
  or_nil (lines_tables p) ++ or_nil (default_tables p).

(** The identity of a table and the order of the output. *)
Definition key (t : Table) : nat * nat := (page t, table_index t).

Definition key_lt (a b : nat * nat) : Prop :=
  (fst a < fst b)%nat \/ (fst a = fst b /\ (snd a < snd b)%nat).

(** The ways in which the cleanup call fails: the request raises, the
    status is not a success, the body is not JSON, is not an object or
    has no text under [response], the text is not JSON, or it is JSON
    but not an array. *)
Inductive call_fails (loads : str -> option json) : post_outcome -> Prop :=
| fails_transport :
    call_fails loads PostRaises
| fails_status s b :
    is_success s = false ->
    call_fails loads (PostReturns s b)
| fails_body_not_json s b :
    loads b = None ->
    call_fails loads (PostReturns s b)
| fails_body_not_object s b v :
    loads b = Some v -> (forall fs, v <> JObj fs) ->
    call_fails loads (PostReturns s b)
| fails_response_not_text s b fs :
    loads b = Some (JObj fs) ->
    (forall t, dict_get fs (py "response") (JStr []) <> JStr t) ->
    call_fails loads (PostReturns s b)
| fails_text_not_json s b fs t :
    loads b = Some (JObj fs) ->
    dict_get fs (py "response") (JStr []) = JStr t ->
    loads (strip t) = None ->
    call_fails loads (PostReturns s b)
| fails_not_array s b fs t v :
    loads b = Some (JObj fs) ->
    dict_get fs (py "response") (JStr []) = JStr t ->
    loads (strip t) = Some v -> (forall items, v <> JArr items) ->
    call_fails loads (PostReturns s b).

(** The service answered with a success status and a JSON object whose
    [response] text decodes to the array [items]. *)
Definition answers_array (loads : str -> option json) (reply : post_outcome)
  (items : list json) : Prop :=
  exists s b fs t,
    reply = PostReturns s b
    /\ is_success s = true
    /\ loads b = Some (JObj fs)
    /\ dict_get fs (py "response") (JStr []) = JStr t
    /\ loads (strip t) = Some (JArr items).

(** The text of one field as the writer puts it in a record: quoted
    when it holds a special character. *)
Definition fmt (f : str) : str := Csv.join_append [] 0 f false.

(** The text of a row before its line terminator. *)
Definition row_text (row : list str) : str :=
  match row with
  | [] => []
  | f :: rest => fmt f ++ flat_map (fun g => Csv.delimiter :: fmt g) rest
  end.

(** The reader after the text of the field [f], the fields [fs] being
    saved already: past the closing quote of a quoted field, inside an
    unquoted one, or still at its start when the field is empty. *)
Definition after_field (fs : list str) (f : str) : Csv.ReaderObj :=
  if existsb Csv.special f then Csv.mkReader Csv.QUOTE_IN_QUOTED_FIELD f fs
  else match f with
       | [] => Csv.mkReader Csv.START_FIELD [] fs
       | _ :: _ => Csv.mkReader Csv.IN_FIELD f fs
       end.

(** The grid that spells out a normalised table again: its headers as
    the first row, its rows after it. *)
Definition table_grid (t : norm) : grid :=
  map Some (n_headers t) :: n_rows t.

(** The decimal digits. *)
Definition is_digit (c : char) : bool := (48 <=? c) && (c <=? 57).

(** The records of a table's file: the header row when there are
    headers, then the data rows with absent cells as empty strings. *)
Definition csv_records (t : Table) : list (list str) :=
  match headers t with
  | [] => map (map csv_cell) (rows t)
  | _ :: _ => headers t :: map (map csv_cell) (rows t)
  end.

(** A lower-casing of the ASCII letters, for the sample inputs. *)
Definition ascii_lower (s : str) : str :=
  map (fun c => if (65 <=? c) && (c <=? 90) then c + 32 else c) s.

(** The table [t] had it been found [k] pages further on. *)
Definition shift_page (k : nat) (t : Table) : Table :=
  mkTable (page t + k) (table_index t) (headers t) (rows t).

(* ================================================================== *)
(** ** Sample inputs *)

(** The grid of the specification's scenario. *)
Definition scenario_grid : grid :=
  [ [Some (py "Name"); Some (py "Age")];
    [Some (py "Ana"); Some (py "30")];
    [Some []; Some []] ].

(** A header row and one data cell with spaces around its content. *)
Definition padded_grid : grid :=
  [ [Some (py "h")]; [Some (py " a ")] ].

(** Blank rows above the header row, and a blank header cell. *)
Definition late_header_grid : grid :=
  [ [None; Some (py "  ")];
    [];
    [Some (py " x "); None; Some (py " ")];
    [Some (py "1"); Some (py " "); None];
    [Some (py " 2")] ].

Definition blank_grid : grid := [ [None; Some (py " ")]; []; [Some []] ].

(** Three pages: the line strategy answers for the first, only the
    defaults answer for the second, nothing is found on the third. *)
Definition sample_pdf : list Page :=
  [ mkPage (Some [scenario_grid; blank_grid]) (Some [padded_grid]);
    mkPage (Some []) (Some [scenario_grid]);
    mkPage None None ].

(** The double quote. *)
Definition dq : str := [34].

(** The body of an answer whose [response] text is the array [1, 2], and
    a body whose [response] text is the number 7. *)
Definition body_of (text : str) : str :=
  py "{" ++ dq ++ py "response" ++ dq ++ py ": " ++ dq ++ text ++ dq ++ py "}".

Definition array_body : str := body_of (py "[1, 2]").
Definition number_body : str := body_of (py " 7 ").

(** A decoder that agrees with [json.loads] on the texts above and
    rejects every other text. *)
Definition demo_loads (text : str) : option json :=
  if str_eq_dec text array_body
  then Some (JObj [(py "response", JStr (py "[1, 2]"))])
  else if str_eq_dec text number_body
  then Some (JObj [(py "response", JStr (py " 7 "))])
  else if str_eq_dec text (py "[1, 2]")
  then Some (JArr [JInt 1; JInt 2])
  else if str_eq_dec text (py "7")
  then Some (JInt 7)
  else None.

(** The table of the scenario, as stored. *)
Definition scenario_table : Table :=
  mkTable 1 0 [py "Name"; py "Age"]
          [[Some (py "Ana"); Some (py "30")]; [None; None]].

(** Stored tables: one without headers, the degenerate one, and one
    whose cells hold delimiters, quotes and line breaks. *)
Definition headerless_table : Table := mkTable 1 0 [] [[Some (py "a")]].

Definition degenerate_table : Table := mkTable 1 1 [] [].

Definition tricky_table : Table :=
  mkTable 2 0 [py "a,b"; []; dq ++ py "q"]
          [[Some ([10; 13] ++ py ",x"); None; Some (py " y ")]; []; [None]].

Definition sample_upload : UploadRecord :=
  mkUpload (py "u1") [scenario_table; headerless_table; degenerate_table; tricky_table].

(* ================================================================== *)
(** ** Normalisation *)

Section Normalize.

Lemma is_empty_true (s : str) : is_empty s = true <-> s = [].
Proof. destruct s; simpl; split; congruence. Qed.

Lemma is_empty_false (s : str) : is_empty s = false <-> s <> [].
Proof. destruct s; simpl; split; congruence. Qed.

Lemma cell_nonblank_true (c : cell) :
  cell_nonblank c = true <-> exists s, c = Some s /\ strip s <> [].
Proof.
  destruct c as [s|]; simpl.
  - rewrite negb_true_iff, is_empty_false. split.
    + intros H. exists s. auto.
    + intros (s' & E & H). inversion E. subst. exact H.
  - split; [discriminate | intros (s & E & _); discriminate].
Qed.

Lemma row_nonblank_existsb (row : raw_row) :
  row_nonblank row = existsb cell_nonblank row.
Proof. destruct row; reflexivity. Qed.

Lemma row_nonblank_true (row : raw_row) :
  row_nonblank row = true <-> exists c s, In c row /\ c = Some s /\ strip s <> [].
Proof.
  rewrite row_nonblank_existsb, existsb_exists. split.
  - intros (c & Hin & Hc). apply cell_nonblank_true in Hc.
    destruct Hc as (s & E & H). exists c, s. auto.
  - intros (c & s & Hin & E & H). exists c. split; [exact Hin|].
    apply cell_nonblank_true. exists s. auto.
Qed.

Lemma row_nonblank_false (row : raw_row) :
  row_nonblank row = false <->
  forall c s, In c row -> c = Some s -> strip s = [].
Proof.
  split.
  - intros Hf c s Hin E.
    destruct (str_eq_dec (strip s) []) as [|Hne]; [assumption|].
    assert (row_nonblank row = true) as Ht
      by (apply row_nonblank_true; exists c, s; auto).
    congruence.
  - intros H. destruct (row_nonblank row) eqn:E; [|reflexivity].
    apply row_nonblank_true in E. destruct E as (c & s & Hin & Ec & Hne).
    exfalso. apply Hne. eapply H; eauto.
Qed.

(** The loop stops at the header row: it returns that row's cells and
    the rows after it. *)
Lemma find_header_at (raw : grid) (i : nat) (row : raw_row) :
  header_at raw i row ->
  find_header raw = (map header_cell row, skipn (S i) raw).
Proof.
  revert i. induction raw as [|r raw IH]; intros i (Hn & Hne & Hbefore).
  - destruct i; discriminate.
  - destruct i as [|i]; simpl in Hn.
    + inversion Hn; subst r. simpl.
      apply row_nonblank_true in Hne. rewrite Hne. reflexivity.
    + assert (row_nonblank r = false) as Hr.
      { apply row_nonblank_false. intros c s Hin E.
        apply (Hbefore 0%nat r c s); auto. lia. }
      cbn [find_header]. rewrite Hr. rewrite (IH i).
      * reflexivity.
      * split; [exact Hn|]. split; [exact Hne|].
        intros j r' c s Hj Hnth. apply (Hbefore (S j) r' c s); auto. lia.
Qed.

Lemma find_header_blank (raw : grid) :
  all_blank raw -> find_header raw = ([], []).
Proof.
  induction raw as [|r raw IH]; intros H; [reflexivity|].
  cbn [find_header].
  assert (row_nonblank r = false) as Hr.
  { apply row_nonblank_false. intros c s Hin E.
    apply (H r c s); simpl; auto. }
  rewrite Hr. apply IH. intros r' c s Hin. apply H. simpl. auto.
Qed.

(** Either there is a header row or the whole grid is blank. *)
Lemma header_or_blank (raw : grid) :
  (exists i row, header_at raw i row) \/ all_blank raw.
Proof.
  induction raw as [|r raw IH].
  - right. intros r c s [].
  - destruct (row_nonblank r) eqn:Hr.
    + left. exists 0%nat, r. split; [reflexivity|]. split.
      * apply row_nonblank_true. exact Hr.
      * intros j ? ? ? Hj. lia.
    + destruct IH as [(i & row & Hn & Hne & Hb) | Hall].
      * left. exists (S i), row. split; [exact Hn|]. split; [exact Hne|].
        intros [|j] r' c s Hj Hnth Hin E.
        -- simpl in Hnth. inversion Hnth; subst r'.
           eapply row_nonblank_false; eauto.
        -- simpl in Hnth. apply (Hb j r' c s); auto. lia.
      * right. intros r' c s [<-|Hin] Hc E.
        -- eapply row_nonblank_false; eauto.
        -- eapply Hall; eauto.
Qed.

Lemma clean_cell_not_blank (c : cell) :
  match clean_cell c with
  | None => True
  | Some s => strip s <> []
  end.
Proof.
  destruct c as [s|]; simpl; [|exact I].
  destruct (is_empty (strip s)) eqn:E; [exact I|].
  apply is_empty_false. exact E.
Qed.

Lemma normalize_rows_not_blank (raw : grid) :
  Forall (Forall (fun c => match c with
                           | None => True
                           | Some s => strip s <> []
                           end))
         (n_rows (_normalize_table raw)).
Proof.
  unfold _normalize_table. destruct (find_header raw) as [h d]. simpl.
  apply Forall_forall. intros r' Hin. apply in_map_iff in Hin.
  destruct Hin as (r & <- & _). apply Forall_forall. intros c' Hc.
  apply in_map_iff in Hc. destruct Hc as (c & <- & _).
  apply clean_cell_not_blank.
Qed.

Lemma nth_error_skipn {A} (l : list A) (n k : nat) :
  nth_error (skipn n l) k = nth_error l (n + k).
Proof.
  revert l. induction n as [|n IH]; intros [|x l]; simpl; auto.
  destruct k; reflexivity.
Qed.

End Normalize.

Lemma header_at_intro (raw : grid) (i : nat) (row : raw_row) :
  nth_error raw i = Some row ->
  row_nonblank row = true ->
  forallb (fun r => negb (row_nonblank r)) (firstn i raw) = true ->
  header_at raw i row.
Proof.
  intros Hn Hr Hb. split; [exact Hn|]. split.
  - apply row_nonblank_true. exact Hr.
  - intros j r c s Hj Hnth Hin E.
    rewrite forallb_forall in Hb.
    assert (In r (firstn i raw)) as Hin'.
    { apply nth_error_In with (n := j). rewrite nth_error_firstn.
      apply Nat.ltb_lt in Hj. rewrite Hj. exact Hnth. }
    apply Hb in Hin'. apply negb_true_iff in Hin'.
    eapply row_nonblank_false; eauto.
Qed.

(** The scenario of the specification: the grid
    [[Name, Age], [Ana, 30], ['', '']] normalises to the headers
    [Name, Age] and the rows [[Ana, 30], [None, None]]. *)
Example normalize_scenario :
  _normalize_table scenario_grid
  = mkNorm [py "Name"; py "Age"]
           [[Some (py "Ana"); Some (py "30")]; [None; None]].
Proof. reflexivity. Qed.

(** C1 (as amended): in every emitted data row the length is that of the
    raw row, a cell that is absent or trims to blank becomes the absence
    marker, and every other cell is kept as it is, untrimmed; so no
    emitted data cell is an empty or blank string. *)
Theorem C1_data_cells_kept_or_absent (raw : grid) (i : nat) (hrow : raw_row) :
  header_at raw i hrow ->
  Forall (Forall (fun c => match c with
                           | None => True
                           | Some s => strip s <> []
                           end))
         (n_rows (_normalize_table raw))
  /\ forall k r, nth_error raw (S i + k) = Some r ->
       exists r',
         nth_error (n_rows (_normalize_table raw)) k = Some r'
         /\ List.length r' = List.length r
         /\ forall j c, nth_error r j = Some c ->
              nth_error r' j
              = Some (match c with
                      | None => None
                      | Some s => if is_empty (strip s) then None else Some s
                      end).
Proof.
  intros H. split; [apply normalize_rows_not_blank|].
  intros k r Hr. unfold _normalize_table.
  rewrite (find_header_at raw i hrow H). cbn [n_rows].
  exists (map clean_cell r). split; [|split].
  - rewrite nth_error_map, nth_error_skipn, Hr. reflexivity.
  - apply length_map.
  - intros j c Hc. rewrite nth_error_map, Hc. destruct c; reflexivity.
Qed.

Lemma C1_data_cells_kept_or_absent_witness :
  header_at late_header_grid 2 [Some (py " x "); None; Some (py " ")]
  /\ exists r',
       nth_error (n_rows (_normalize_table late_header_grid)) 0 = Some r'
       /\ List.length r' = 3%nat.
Proof.
  assert (header_at late_header_grid 2 [Some (py " x "); None; Some (py " ")]) as H
    by (apply header_at_intro; reflexivity).
  split; [exact H|].
  destruct (C1_data_cells_kept_or_absent _ _ _ H) as [_ Hrows].
  destruct (Hrows 0%nat [Some (py "1"); Some (py " "); None] eq_refl)
    as (r' & Hn & Hl & _).
  exists r'. split; [exact Hn | exact Hl].
Defined.

(** C1 (as stated) fails: a data cell with spaces around its content is
    emitted with the spaces, not as its trimmed content. *)
Lemma C1_counterexample :
  n_rows (_normalize_table padded_grid) = [[Some (py " a ")]]
  /\ n_rows (_normalize_table padded_grid)
     <> map (map spec_clean_cell) (skipn 1 padded_grid).
Proof. split; [reflexivity | discriminate]. Qed.

(** C3: when the grid has a row with a non-blank cell, the topmost such
    row gives the headers, cell by cell trimmed, an absent or blank cell
    giving the empty string, so that the length is kept; the data rows
    are the rows after it, as many and in the same order. *)
Theorem C3_first_nonblank_row_is_header (raw : grid) (i : nat) (hrow : raw_row) :
  header_at raw i hrow ->
  let t := _normalize_table raw in
  List.length (n_headers t) = List.length hrow
  /\ (forall j c, nth_error hrow j = Some c ->
        nth_error (n_headers t) j
        = Some (match c with
                | None => []
                | Some s => strip s
                end))
  /\ (forall j s, nth_error hrow j = Some (Some s) -> strip s = [] ->
        nth_error (n_headers t) j = Some [])
  /\ List.length (n_rows t) = (List.length raw - S i)%nat
  /\ n_rows t = map (map clean_cell) (skipn (S i) raw).
Proof.
  intros H t. subst t. unfold _normalize_table.
  rewrite (find_header_at raw i hrow H). cbn [n_headers n_rows].
  split; [apply length_map|]. split; [|split; [|split]].
  - intros j c Hc. rewrite nth_error_map, Hc. destruct c; reflexivity.
  - intros j s Hc Hs. rewrite nth_error_map, Hc. simpl. rewrite Hs. reflexivity.
  - rewrite length_map, length_skipn. reflexivity.
  - reflexivity.
Qed.

Lemma C3_first_nonblank_row_is_header_witness :
  header_at late_header_grid 2 [Some (py " x "); None; Some (py " ")]
  /\ n_headers (_normalize_table late_header_grid) = [py "x"; []; []]
  /\ List.length (n_rows (_normalize_table late_header_grid)) = 2%nat.
Proof.
  assert (header_at late_header_grid 2 [Some (py " x "); None; Some (py " ")]) as H
    by (apply header_at_intro; reflexivity).
  split; [exact H|].
  destruct (C3_first_nonblank_row_is_header _ _ _ H) as (_ & _ & _ & Hl & _).
  split; [reflexivity | exact Hl].
Defined.

(* ================================================================== *)
(** ** The extraction loop *)

Section Extraction.

Lemma tables_from_length (p_idx t_idx : nat) (raws : list grid) :
  List.length (tables_from p_idx t_idx raws) = List.length raws.
Proof.
  revert t_idx. induction raws as [|g raws IH]; intros t_idx; simpl; auto.
Qed.

Lemma tables_from_nth (p_idx : nat) (raws : list grid) :
  forall t_idx j raw,
    nth_error raws j = Some raw ->
    nth_error (tables_from p_idx t_idx raws) j
    = Some (mkTable p_idx (t_idx + j)
                    (n_headers (_normalize_table raw))
                    (n_rows (_normalize_table raw))).
Proof.
  induction raws as [|g raws IH]; intros t_idx [|j] raw H;
    simpl in H; try discriminate.
  - inversion H; subst. simpl. rewrite Nat.add_0_r. reflexivity.
  - simpl. rewrite (IH (S t_idx) j raw H). do 2 f_equal. lia.
Qed.

Lemma tables_from_in (p_idx : nat) (raws : list grid) :
  forall t_idx t,
    In t (tables_from p_idx t_idx raws) ->
    exists raw, In raw raws
                /\ page t = p_idx
                /\ (t_idx <= table_index t)%nat
                /\ headers t = n_headers (_normalize_table raw)
                /\ rows t = n_rows (_normalize_table raw).
Proof.
  induction raws as [|g raws IH]; intros t_idx t H; simpl in H; [contradiction|].
  destruct H as [<-|H].
  - exists g. simpl. auto.
  - destruct (IH _ _ H) as (raw & Hin & Hp & Hi & Hh & Hr).
    exists raw. simpl. repeat split; auto. lia.
Qed.

Lemma tables_from_index (p_idx : nat) (raws : list grid) :
  forall t_idx,
    map table_index (tables_from p_idx t_idx raws)
    = seq t_idx (List.length raws).
Proof.
  induction raws as [|g raws IH]; intros t_idx; simpl; [reflexivity|].
  rewrite IH. reflexivity.
Qed.

Lemma pages_from_in (pages : list Page) :
  forall p_idx t,
    In t (pages_from p_idx pages) ->
    exists k p, nth_error pages k = Some p
                /\ page t = (p_idx + k)%nat
                /\ In t (tables_of_page (p_idx + k) p).
Proof.
  induction pages as [|p pages IH]; intros p_idx t H; simpl in H; [contradiction|].
  apply in_app_or in H. destruct H as [H|H].
  - exists 0%nat, p. rewrite Nat.add_0_r. split; [reflexivity|].
    split; [|exact H].
    destruct (tables_from_in _ _ _ _ H) as (_ & _ & Hp & _). exact Hp.
  - destruct (IH _ _ H) as (k & q & Hn & Hp & Hin).
    exists (S k), q. replace (p_idx + S k)%nat with (S p_idx + k)%nat by lia.
    auto.
Qed.

Lemma pages_from_nth_in (pages : list Page) :
  forall p_idx k p t,
    nth_error pages k = Some p ->
    In t (tables_of_page (p_idx + k) p) ->
    In t (pages_from p_idx pages).
Proof.
  induction pages as [|q pages IH]; intros p_idx [|k] p t Hn Hin;
    simpl in Hn; try discriminate; simpl; apply in_or_app.
  - inversion Hn; subst. rewrite Nat.add_0_r in Hin. auto.
  - right. apply (IH (S p_idx) k p); auto.
    replace (S p_idx + k)%nat with (p_idx + S k)%nat by lia. exact Hin.
Qed.

Lemma filter_keep {A} (f : A -> bool) (l : list A) :
  (forall x, In x l -> f x = true) -> filter f l = l.
Proof.
  induction l as [|x l IH]; intros H; simpl; [reflexivity|].
  rewrite (H x) by (simpl; auto). f_equal. apply IH.
  intros y Hy. apply H. simpl. auto.
Qed.

Lemma filter_drop {A} (f : A -> bool) (l : list A) :
  (forall x, In x l -> f x = false) -> filter f l = [].
Proof.
  induction l as [|x l IH]; intros H; simpl; [reflexivity|].
  rewrite (H x) by (simpl; auto). apply IH.
  intros y Hy. apply H. simpl. auto.
Qed.

(** The tables of one page, picked out of the whole output, are the
    tables built for that page. *)
Lemma pages_from_filter (pages : list Page) :
  forall p_idx k p,
    nth_error pages k = Some p ->
    filter (fun t => (page t =? p_idx + k)%nat) (pages_from p_idx pages)
    = tables_of_page (p_idx + k) p.
Proof.
  induction pages as [|q pages IH]; intros p_idx [|k] p Hn;
    simpl in Hn; try discriminate; simpl; rewrite filter_app.
  - inversion Hn; subst. rewrite Nat.add_0_r.
    rewrite filter_keep, filter_drop.
    + apply app_nil_r.
    + intros t Ht. apply pages_from_in in Ht.
      destruct Ht as (k & _ & _ & Hp & _). apply Nat.eqb_neq. lia.
    + intros t Ht. apply tables_from_in in Ht.
      destruct Ht as (_ & _ & Hp & _). apply Nat.eqb_eq. exact Hp.
  - rewrite filter_drop.
    + replace (p_idx + S k)%nat with (S p_idx + k)%nat by lia.
      apply IH. exact Hn.
    + intros t Ht. apply tables_from_in in Ht.
      destruct Ht as (_ & _ & Hp & _). apply Nat.eqb_neq. lia.
Qed.

Lemma StronglySorted_app {A} (R : A -> A -> Prop) (l1 l2 : list A) :
  StronglySorted R l1 -> StronglySorted R l2 ->
  (forall x y, In x l1 -> In y l2 -> R x y) ->
  StronglySorted R (l1 ++ l2).
Proof.
  induction l1 as [|a l1 IH]; intros H1 H2 H; simpl; [exact H2|].
  inversion H1; subst. constructor.
  - apply IH; auto. intros x y Hx Hy. apply H; simpl; auto.
  - apply Forall_app. split; [assumption|].
    apply Forall_forall. intros y Hy. apply H; simpl; auto.
Qed.

Lemma tables_from_sorted (p_idx : nat) (raws : list grid) :
  forall t_idx,
    StronglySorted key_lt (map key (tables_from p_idx t_idx raws)).
Proof.
  induction raws as [|g raws IH]; intros t_idx; simpl; constructor.
  - apply IH.
  - apply Forall_forall. intros y Hy. apply in_map_iff in Hy.
    destruct Hy as (t & <- & Ht). apply tables_from_in in Ht.
    destruct Ht as (_ & _ & Hp & Hi & _).
    right. unfold key. simpl. split; [congruence | lia].
Qed.

Lemma pages_from_sorted (pages : list Page) :
  forall p_idx, StronglySorted key_lt (map key (pages_from p_idx pages)).
Proof.
  induction pages as [|p pages IH]; intros p_idx; simpl; [constructor|].
  rewrite map_app. apply StronglySorted_app.
  - apply tables_from_sorted.
  - apply IH.
  - intros x y Hx Hy. apply in_map_iff in Hx, Hy.
    destruct Hx as (t & <- & Ht). destruct Hy as (u & <- & Hu).
    apply tables_from_in in Ht. destruct Ht as (_ & _ & Hp & _).
    apply pages_from_in in Hu. destruct Hu as (k & _ & _ & Hq & _).
    left. unfold key. simpl. lia.
Qed.

(** The grids that are normalised come from the page. *)
Lemma raw_tables_of_grids (p : Page) (g : grid) :
  In g (snd (raw_tables_of p)) -> In g (page_grids p).
Proof.
  unfold raw_tables_of, page_grids. simpl.
  destruct (or_nil (lines_tables p)) as [|g0 l] eqn:E; simpl.
  - auto.
  - intros [<-|H]; [left; reflexivity|]. right. apply in_or_app. auto.
Qed.

Lemma extract_tables_in (pdf_pages : list Page) (t : Table) :
  In t (extract_tables pdf_pages) ->
  exists k p raw,
    nth_error pdf_pages k = Some p
    /\ In raw (snd (raw_tables_of p))
    /\ page t = S k
    /\ headers t = n_headers (_normalize_table raw)
    /\ rows t = n_rows (_normalize_table raw).
Proof.
  intros H. apply pages_from_in in H. destruct H as (k & p & Hn & Hp & Hin).
  apply tables_from_in in Hin. destruct Hin as (raw & Hr & _ & _ & Hh & Hrows).
  exists k, p, raw. auto.
Qed.

End Extraction.

(** The rows of a normalised rectangular grid are as long as its
    headers. *)
Lemma normalize_rectangular (raw : grid) :
  rectangular raw ->
  Forall (fun r => List.length r = List.length (n_headers (_normalize_table raw)))
         (n_rows (_normalize_table raw)).
Proof.
  intros (n & Hn). destruct (header_or_blank raw) as [(i & hrow & H) | H].
  - unfold _normalize_table. rewrite (find_header_at raw i hrow H).
    cbn [n_headers n_rows]. rewrite Forall_forall in Hn.
    apply Forall_forall. intros r' Hr'. apply in_map_iff in Hr'.
    destruct Hr' as (r & <- & Hr). rewrite !length_map.
    rewrite (Hn r).
    + symmetry. apply Hn. destruct H as (Hnth & _).
      eapply nth_error_In; eauto.
    + revert Hr. clear. revert raw. generalize (S i) as m.
      induction m as [|m IH]; intros [|x raw]; simpl; auto.
  - unfold _normalize_table. rewrite (find_header_blank raw H). constructor.
Qed.

(** C2: every table emitted by the pipeline whose headers are not empty
    has all its rows as long as its headers; the grids that the pages
    hand over are rectangular, and normalisation keeps the length of
    every row. *)
Theorem C2_rows_as_long_as_headers (pdf_pages : list Page) :
  (forall p g, In p pdf_pages -> In g (page_grids p) -> rectangular g) ->
  forall t, In t (extract_tables pdf_pages) ->
            headers t <> [] ->
            Forall (fun r => List.length r = List.length (headers t)) (rows t).
Proof.
  intros Hrect t Ht _.
  destruct (extract_tables_in _ _ Ht) as (k & p & raw & Hn & Hraw & _ & Hh & Hr).
  rewrite Hh, Hr. apply normalize_rectangular.
  apply (Hrect p).
  - eapply nth_error_In; eauto.
  - apply raw_tables_of_grids. exact Hraw.
Qed.

Lemma scenario_rectangular : rectangular scenario_grid.
Proof. exists 2%nat. repeat constructor. Qed.

Lemma C2_rows_as_long_as_headers_witness :
  Forall (fun r => List.length r = 2%nat)
         [[Some (py "Ana"); Some (py "30")]; [None; None]].
Proof.
  apply (C2_rows_as_long_as_headers
           [mkPage (Some [scenario_grid]) None]
           ltac:(intros p g [<-|[]] [<-|[]]; exact scenario_rectangular)
           (mkTable 1 0 [py "Name"; py "Age"]
                    [[Some (py "Ana"); Some (py "30")]; [None; None]])).
  - left. reflexivity.
  - discriminate.
Defined.

(** C4: a grid in which no row has a cell with non-blank trimmed content
    (the empty grid is one) normalises to empty headers and empty rows,
    and the extraction still emits a table for it, at the grid's own
    position on its page. *)
Theorem C4_blank_grid_gives_empty_table (raw : grid) :
  all_blank raw ->
  _normalize_table raw = mkNorm [] []
  /\ forall pdf_pages k p j,
       nth_error pdf_pages k = Some p ->
       nth_error (snd (raw_tables_of p)) j = Some raw ->
       In (mkTable (S k) j [] []) (extract_tables pdf_pages).
Proof.
  intros H.
  assert (_normalize_table raw = mkNorm [] []) as E
    by (unfold _normalize_table; rewrite (find_header_blank raw H); reflexivity).
  split; [exact E|].
  intros pdf_pages k p j Hp Hj.
  apply (pages_from_nth_in pdf_pages 1 k p); [exact Hp|].
  apply nth_error_In with (n := j). unfold tables_of_page.
  rewrite (tables_from_nth _ _ 0%nat j raw Hj), E. reflexivity.
Qed.

Lemma blank_grid_all_blank : all_blank blank_grid.
Proof.
  intros r c s Hr Hc E. subst c.
  assert (row_nonblank r = false) as Hb.
  { simpl in Hr. destruct Hr as [<-|[<-|[<-|[]]]]; reflexivity. }
  eapply row_nonblank_false; eauto.
Qed.

Lemma C4_blank_grid_gives_empty_table_witness :
  _normalize_table blank_grid = mkNorm [] []
  /\ In (mkTable 1 1 [] []) (extract_tables sample_pdf).
Proof.
  destruct (C4_blank_grid_gives_empty_table blank_grid blank_grid_all_blank)
    as [E Hin].
  split; [exact E|].
  exact (Hin sample_pdf 0%nat _ 1%nat eq_refl eq_refl).
Defined.

(** C7: on every page the second strategy is called exactly when the
    line strategy gave nothing, and the grids that are normalised are
    those of one strategy alone: the line strategy's when it found any,
    else the second's. *)
Theorem C7_second_strategy_only_on_empty (p : Page) :
  let primary := or_nil (page_extract_tables p Lines) in
  let secondary := or_nil (page_extract_tables p Defaults) in
  (In Defaults (fst (raw_tables_of p)) <-> primary = [])
  /\ hd_error (fst (raw_tables_of p)) = Some Lines
  /\ snd (raw_tables_of p)
     = match primary with
       | [] => secondary
       | _ :: _ => primary
       end
  /\ forall p_idx, tables_of_page p_idx p
                   = tables_from p_idx 0 (match primary with
                                          | [] => secondary
                                          | _ :: _ => primary
                                          end).
Proof.
  unfold tables_of_page, raw_tables_of. simpl.
  destruct (or_nil (lines_tables p)) as [|g l]; simpl.
  - repeat split; auto.
  - repeat split; auto; try discriminate.
    intros [H|[]]; discriminate.
Qed.

(** C8: the tables of a page carry the indices [0 .. N-1], [N] being the
    number of grids found on the page, the [j]-th table coming from the
    [j]-th grid; and the output is in increasing order of page and then
    of index, with pages numbered from one. *)
Theorem C8_indices_dense_and_ordered (pdf_pages : list Page) :
  (forall k p,
      nth_error pdf_pages k = Some p ->
      let found := snd (raw_tables_of p) in
      let on_page := filter (fun t => (page t =? S k)%nat) (extract_tables pdf_pages) in
      map table_index on_page = seq 0 (List.length found)
      /\ forall j raw, nth_error found j = Some raw ->
           nth_error on_page j
           = Some (mkTable (S k) j (n_headers (_normalize_table raw))
                           (n_rows (_normalize_table raw))))
  /\ StronglySorted key_lt (map key (extract_tables pdf_pages))
  /\ Forall (fun t => (1 <= page t <= List.length pdf_pages)%nat)
            (extract_tables pdf_pages).
Proof.
  split; [|split].
  - intros k p Hp found on_page. subst found on_page. unfold extract_tables.
    change (S k) with (1 + k)%nat.
    rewrite (pages_from_filter pdf_pages 1 k p Hp). unfold tables_of_page.
    split.
    + apply tables_from_index.
    + intros j raw Hj. rewrite (tables_from_nth _ _ 0%nat j raw Hj). reflexivity.
  - apply pages_from_sorted.
  - apply Forall_forall. intros t Ht. apply pages_from_in in Ht.
    destruct Ht as (k & p & Hn & Hp & _).
    assert (k < List.length pdf_pages)%nat
      by (apply nth_error_Some; congruence).
    lia.
Qed.

(** The output for the sample document. *)
Example extract_sample :
  map key (extract_tables sample_pdf) = [(1, 0); (1, 1); (2, 0)]%nat.
Proof. reflexivity. Qed.

(* ================================================================== *)
(** ** The cleanup call *)

Section CleanupFacts.

Variable loads : str -> option json.

(** Whatever is raised inside the [try] block, the caller gets the
    tables it passed. *)
Lemma clean_raise (reply : post_outcome) (tables : list json) (e : exn) :
  try_clean loads reply tables = Raise e ->
  clean_tables_with_ollama loads reply tables = tables.
Proof. unfold clean_tables_with_ollama. intros ->. reflexivity. Qed.

Lemma clean_answers_array (reply : post_outcome) (tables items : list json) :
  answers_array loads reply items ->
  clean_tables_with_ollama loads reply tables = items.
Proof.
  intros (s & b & fs & t & -> & Hs & Hb & Ht & Hl).
  unfold clean_tables_with_ollama, try_clean, raise_for_status, json_loads.
  simpl. rewrite Hs. simpl. rewrite Hb. simpl. rewrite Ht. simpl.
  rewrite Hl. reflexivity.
Qed.

Lemma clean_fails (reply : post_outcome) (tables : list json) :
  call_fails loads reply ->
  clean_tables_with_ollama loads reply tables = tables.
Proof.
  unfold clean_tables_with_ollama, try_clean, raise_for_status, json_loads.
  intros H. destruct H as
      [ | s b Hs | s b Hb | s b v Hb Hv | s b fs Hb Ht
        | s b fs t Hb Ht Hl | s b fs t v Hb Ht Hl Hv ]; simpl.
  - reflexivity.
  - rewrite Hs. reflexivity.
  - destruct (is_success s); simpl; [rewrite Hb|]; reflexivity.
  - destruct (is_success s); simpl; [rewrite Hb|]; [|reflexivity].
    destruct v; simpl; try reflexivity. exfalso. eapply Hv. reflexivity.
  - destruct (is_success s); simpl; [rewrite Hb|]; [|reflexivity]. simpl.
    destruct (dict_get fs (py "response") (JStr [])) eqn:E; simpl;
      try reflexivity.
    exfalso. eapply Ht. reflexivity.
  - destruct (is_success s); simpl; [rewrite Hb|]; [|reflexivity]. simpl.
    rewrite Ht. simpl. rewrite Hl. reflexivity.
  - destruct (is_success s); simpl; [rewrite Hb|]; [|reflexivity]. simpl.
    rewrite Ht. simpl. rewrite Hl. simpl.
    destruct v; try reflexivity. exfalso. eapply Hv. reflexivity.
Qed.

(** Every call either fails or answers with an array. *)
Lemma fails_or_answers (reply : post_outcome) :
  call_fails loads reply \/ exists items, answers_array loads reply items.
Proof.
  destruct reply as [|s b]; [left; constructor|].
  destruct (is_success s) eqn:Hs; [|left; apply fails_status; exact Hs].
  destruct (loads b) as [v|] eqn:Hb; [|left; apply fails_body_not_json; exact Hb].
  assert ((exists fs, v = JObj fs) \/ forall fs, v <> JObj fs) as [(fs & ->)|Hv]
    by (destruct v; try (right; discriminate); left; eauto).
  2: { left. eapply fails_body_not_object; eauto. }
  destruct (dict_get fs (py "response") (JStr [])) as [| | | |t| |] eqn:Ht;
    try (left; eapply fails_response_not_text; eauto;
         intros t'; rewrite Ht; discriminate).
  destruct (loads (strip t)) as [c|] eqn:Hl;
    [|left; eapply fails_text_not_json; eauto].
  assert ((exists items, c = JArr items) \/ forall items, c <> JArr items)
    as [(items & ->)|Hc]
    by (destruct c; try (right; discriminate); left; eauto).
  - right. exists items, s, b, fs, t. auto.
  - left. eapply fails_not_array; eauto.
Qed.

End CleanupFacts.

(** C5: whenever the cleanup call fails (the request raises, the status
    is not a success, the body or the response text is not JSON, or the
    decoded text is not an array) [clean_tables_with_ollama] returns the
    tables it was given; and nothing raised inside it reaches the caller,
    who gets the same tables then too. *)
Theorem C5_failure_returns_original
  (loads : str -> option json) (reply : post_outcome) (tables : list json) :
  call_fails loads reply ->
  clean_tables_with_ollama loads reply tables = tables
  /\ forall reply' e, try_clean loads reply' tables = Raise e ->
                      clean_tables_with_ollama loads reply' tables = tables.
Proof.
  intros H. split.
  - apply clean_fails. exact H.
  - intros reply' e. apply clean_raise.
Qed.

Lemma number_body_fails : call_fails demo_loads (PostReturns 200 number_body).
Proof.
  eapply fails_not_array with (t := py " 7 ") (v := JInt 7);
    try reflexivity. discriminate.
Qed.

Lemma C5_failure_returns_original_witness :
  clean_tables_with_ollama demo_loads (PostReturns 200 number_body)
                           [table_dict scenario_table]
  = [table_dict scenario_table].
Proof.
  exact (proj1 (C5_failure_returns_original
                  demo_loads (PostReturns 200 number_body)
                  [table_dict scenario_table] number_body_fails)).
Defined.

(** C6 (as amended): an answer that decodes to a JSON array is returned
    as it is, whatever the shape of its elements; the tables passed in
    are returned only when the call fails. *)
Theorem C6_array_returned_unchecked
  (loads : str -> option json) (reply : post_outcome) (tables items : list json) :
  answers_array loads reply items ->
  clean_tables_with_ollama loads reply tables = items.
Proof. apply clean_answers_array. Qed.

Lemma array_body_answers :
  answers_array demo_loads (PostReturns 200 array_body) [JInt 1; JInt 2].
Proof.
  exists 200%Z, array_body, [(py "response", JStr (py "[1, 2]"))], (py "[1, 2]").
  repeat split; reflexivity.
Qed.

Lemma C6_array_returned_unchecked_witness :
  clean_tables_with_ollama demo_loads (PostReturns 200 array_body)
                           [table_dict scenario_table]
  = [JInt 1; JInt 2].
Proof.
  exact (C6_array_returned_unchecked demo_loads _ _ _ array_body_answers).
Defined.

(** C6 (as stated) fails: an array of numbers, none of them an object
    with the four fields, is returned in place of the tables. *)
Lemma C6_counterexample :
  forallb table_shaped [JInt 1; JInt 2] = false
  /\ forallb table_shaped [table_dict scenario_table] = true
  /\ clean_tables_with_ollama demo_loads (PostReturns 200 array_body)
                              [table_dict scenario_table]
     = [JInt 1; JInt 2]
  /\ clean_tables_with_ollama demo_loads (PostReturns 200 array_body)
                              [table_dict scenario_table]
     <> [table_dict scenario_table].
Proof.
  split; [reflexivity|]. split; [reflexivity|].
  split; [reflexivity | discriminate].
Qed.

(* ================================================================== *)
(** ** Writing CSV *)

Section Writer.
Import Csv.

Lemma join_append_fmt (rec : str) (n : nat) (f : str) :
  join_append rec (S n) f false = rec ++ delimiter :: fmt f.
Proof.
  unfold fmt, join_append. simpl.
  destruct (existsb special f); simpl; rewrite <- app_assoc; reflexivity.
Qed.

Lemma join_fields_S (row : list str) :
  forall rec n,
    join_fields rec (S n) row
    = (rec ++ flat_map (fun g => delimiter :: fmt g) row,
       (S n + List.length row)%nat).
Proof.
  induction row as [|f row IH]; intros rec n; simpl.
  - rewrite app_nil_r, Nat.add_0_r. reflexivity.
  - rewrite join_append_fmt, IH, <- app_assoc. simpl.
    do 2 f_equal. lia.
Qed.

Lemma join_fields_row (row : list str) :
  join_fields [] 0 row = (row_text row, List.length row).
Proof.
  destruct row as [|f rest]; [reflexivity|].
  cbn [join_fields]. fold (fmt f). rewrite join_fields_S. reflexivity.
Qed.

Lemma fmt_nil_iff (f : str) : fmt f = [] <-> f = [].
Proof.
  split; [|intros ->; reflexivity].
  unfold fmt, join_append. simpl.
  destruct (existsb special f); [discriminate|].
  destruct f as [|c f]; [reflexivity|]. simpl.
  destruct (c =? quotechar); discriminate.
Qed.

Lemma writerow_nil : writerow [] = lineterminator.
Proof. reflexivity. Qed.

Lemma writerow_single_empty : writerow [[]] = quotechar :: quotechar :: lineterminator.
Proof. reflexivity. Qed.

Lemma writerow_text (row : list str) :
  row <> [[]] -> writerow row = row_text row ++ lineterminator.
Proof.
  intros Hne. unfold writerow. rewrite join_fields_row.
  destruct row as [|f rest]; [reflexivity|].
  destruct (row_text (f :: rest)) as [|c t] eqn:E; [|reflexivity].
  exfalso. simpl in E. apply app_eq_nil in E. destruct E as [Ef Er].
  apply (proj1 (fmt_nil_iff f)) in Ef. subst f.
  destruct rest; [apply Hne; reflexivity | discriminate].
Qed.

Lemma fold_writerow (rows : list (list str)) :
  forall out,
    fold_left (fun out r => out ++ writerow r) rows out
    = out ++ flat_map writerow rows.
Proof.
  induction rows as [|r rows IH]; intros out; simpl.
  - rewrite app_nil_r. reflexivity.
  - rewrite IH, <- app_assoc. reflexivity.
Qed.

Lemma fold_writerow_cells (rows : list (list cell)) :
  forall out,
    fold_left (fun out r => out ++ writerow (map csv_cell r)) rows out
    = out ++ flat_map writerow (map (map csv_cell) rows).
Proof.
  induction rows as [|r rows IH]; intros out; simpl.
  - rewrite app_nil_r. reflexivity.
  - rewrite IH, <- app_assoc. reflexivity.
Qed.

(** The file of a table: the header row when there are headers, then
    the data rows. *)
Lemma csv_text_records (t : Table) :
  csv_text t
  = flat_map writerow
      (match headers t with
       | [] => map (map csv_cell) (rows t)
       | _ :: _ => headers t :: map (map csv_cell) (rows t)
       end).
Proof.
  unfold csv_text, write_table. rewrite fold_writerow_cells.
  destruct (headers t); simpl; [reflexivity|].
  reflexivity.
Qed.

End Writer.

(* ================================================================== *)
(** ** Reading CSV back *)

Section Reader.
Import Csv.

Lemma readlines_nonempty (text : str) : text <> [] -> readlines text <> [].
Proof.
  destruct text as [|c t]; [congruence|]. intros _. simpl.
  destruct (c =? LF); [discriminate|].
  destruct (readlines t); discriminate.
Qed.

(** A character that does not end the line is fed to the machine and
    the reading goes on. *)
Lemma read_step (r : ReaderObj) (c : char) (tail : str) :
  (c =? LF) = false -> tail <> [] ->
  read_all r (readlines (c :: tail))
  = match parse_process_char r (Ch c) with
    | None => None
    | Some r' => read_all r' (readlines tail)
    end.
Proof.
  intros Hc Ht. cbn [readlines]. rewrite Hc.
  destruct (readlines tail) as [|l ls] eqn:E.
  - exfalso. apply (readlines_nonempty tail Ht E).
  - cbn [read_all process_line].
    destruct (parse_process_char r (Ch c)); reflexivity.
Qed.

(** A line feed is fed to the machine, then the end of the line. *)
Lemma read_LF (r : ReaderObj) (tail : str) :
  read_all r (readlines (LF :: tail))
  = match parse_process_char r (Ch LF) with
    | None => None
    | Some r1 =>
        match parse_process_char r1 EOL with
        | None => None
        | Some r2 =>
            match state r2 with
            | START_RECORD =>
                option_map (cons (fields r2)) (read_all parse_reset (readlines tail))
            | _ => read_all r2 (readlines tail)
            end
        end
    end.
Proof.
  cbn [readlines]. change (LF =? LF) with true. cbn [read_all process_line].
  destruct (parse_process_char r (Ch LF)); reflexivity.
Qed.

(** From here on the text is consumed through the two lemmas above. *)
Local Opaque readlines read_all.

Ltac feed :=
  unfold parse_process_char, start_field, is_newline, set_state,
    parse_add_char, parse_save_field, parse_reset;
  cbn.

Lemma special_false (c : char) :
  special c = false ->
  (c =? delimiter) = false /\ (c =? quotechar) = false
  /\ (c =? CR) = false /\ (c =? LF) = false.
Proof.
  unfold special. simpl. rewrite !orb_false_iff. tauto.
Qed.

Lemma escape_plain (f : str) :
  existsb special f = false -> escape f = f.
Proof.
  induction f as [|c f IH]; simpl; [reflexivity|].
  rewrite orb_false_iff. intros [Hc Hf].
  apply special_false in Hc. destruct Hc as (_ & Hq & _).
  rewrite Hq. simpl. f_equal. apply IH. exact Hf.
Qed.

(** Inside the quotes: every character of the field is collected, a
    doubled quote as one quote, a line feed without ending the
    record. *)
Lemma read_quoted_body (f : str) :
  forall fld fs tail,
    tail <> [] ->
    read_all (mkReader IN_QUOTED_FIELD fld fs)
             (readlines (escape f ++ quotechar :: tail))
    = read_all (mkReader QUOTE_IN_QUOTED_FIELD (fld ++ f) fs) (readlines tail).
Proof.
  induction f as [|c f IH]; intros fld fs tail Ht.
  - change (escape []) with (@nil N). cbn [app].
    rewrite read_step by (reflexivity || assumption).
    rewrite app_nil_r. reflexivity.
  - cbn [escape flat_map]. fold (escape f).
    destruct (c =? quotechar) eqn:Hq.
    + apply N.eqb_eq in Hq. subst c. cbn [app].
      rewrite read_step by (reflexivity || discriminate).
      feed. rewrite read_step
        by (reflexivity || (destruct (escape f); discriminate)).
      feed. rewrite (IH (fld ++ [quotechar]) fs tail Ht), <- app_assoc.
      reflexivity.
    + cbn [app]. destruct (c =? LF) eqn:Hl.
      * apply N.eqb_eq in Hl. subst c. rewrite read_LF. feed.
        rewrite (IH (fld ++ [LF]) fs tail Ht), <- app_assoc. reflexivity.
      * rewrite read_step
          by (assumption || (destruct (escape f); discriminate)).
        feed. rewrite Hq.
        rewrite (IH (fld ++ [c]) fs tail Ht), <- app_assoc. reflexivity.
Qed.

(** Outside quotes: plain characters are collected. *)
Lemma read_plain_body (f : str) :
  forall fld fs tail,
    existsb special f = false -> tail <> [] ->
    read_all (mkReader IN_FIELD fld fs) (readlines (f ++ tail))
    = read_all (mkReader IN_FIELD (fld ++ f) fs) (readlines tail).
Proof.
  induction f as [|c f IH]; intros fld fs tail Hf Ht.
  - simpl. rewrite app_nil_r. reflexivity.
  - simpl in Hf. apply orb_false_iff in Hf. destruct Hf as [Hc Hf].
    apply special_false in Hc. destruct Hc as (Hd & Hq & Hcr & Hlf).
    cbn [app]. rewrite read_step
      by (assumption || (destruct f; [assumption | discriminate])).
    feed. rewrite Hlf, Hcr, Hd. cbn.
    rewrite (IH (fld ++ [c]) fs tail Hf Ht), <- app_assoc. reflexivity.
Qed.

(** The text of a field takes the reader from the start of the field
    to [after_field]. *)
Lemma read_field (f : str) (fs : list str) (tail : str) :
  tail <> [] ->
  read_all (mkReader START_FIELD [] fs) (readlines (fmt f ++ tail))
  = read_all (after_field fs f) (readlines tail).
Proof.
  intros Ht. unfold fmt, after_field, join_append. cbn [Nat.ltb Nat.leb orb].
  destruct (existsb special f) eqn:Hs.
  - cbn [app]. rewrite <- app_assoc. cbn [app].
    rewrite read_step
      by (reflexivity || (destruct (escape f); discriminate)).
    feed. apply (read_quoted_body f [] fs tail Ht).
  - rewrite (escape_plain f Hs). cbn [app].
    destruct f as [|c f]; [reflexivity|].
    simpl in Hs. apply orb_false_iff in Hs. destruct Hs as [Hc Hf].
    apply special_false in Hc. destruct Hc as (Hd & Hq & Hcr & Hlf).
    cbn [app]. rewrite read_step
      by (assumption || (destruct f; [assumption | discriminate])).
    feed. rewrite Hlf, Hcr, Hq, Hd. cbn.
    apply (read_plain_body f [c] fs tail Hf Ht).
Qed.

(** After a field, the delimiter saves it and starts the next one. *)
Lemma read_delimiter (f : str) (fs : list str) (tail : str) :
  tail <> [] ->
  read_all (after_field fs f) (readlines (delimiter :: tail))
  = read_all (mkReader START_FIELD [] (fs ++ [f])) (readlines tail).
Proof.
  intros Ht. rewrite read_step by (reflexivity || assumption).
  unfold after_field. destruct (existsb special f); [reflexivity|].
  destruct f; reflexivity.
Qed.

(** After a field, the line terminator saves it and ends the record. *)
Lemma read_terminator (f : str) (fs : list str) (more : str) :
  read_all (after_field fs f) (readlines (lineterminator ++ more))
  = option_map (cons (fs ++ [f])) (read_all parse_reset (readlines more)).
Proof.
  cbn [lineterminator app].
  rewrite read_step by (reflexivity || discriminate).
  unfold after_field. destruct (existsb special f).
  - feed. rewrite read_LF. reflexivity.
  - destruct f; feed; rewrite read_LF; reflexivity.
Qed.

Lemma row_text_cons (f g : str) (rest : list str) :
  row_text (f :: g :: rest) = fmt f ++ delimiter :: row_text (g :: rest).
Proof. reflexivity. Qed.

Lemma before_terminator (pre more : str) : pre ++ lineterminator ++ more <> [].
Proof. destruct pre; discriminate. Qed.

(** The fields of a row, from the start of one of them on. *)
Lemma read_fields (rest : list str) :
  forall f fs more,
    read_all (mkReader START_FIELD [] fs)
             (readlines (row_text (f :: rest) ++ lineterminator ++ more))
    = option_map (cons (fs ++ f :: rest)) (read_all parse_reset (readlines more)).
Proof.
  induction rest as [|g rest IH]; intros f fs more.
  - cbn [row_text flat_map]. rewrite app_nil_r.
    rewrite read_field by discriminate. apply read_terminator.
  - rewrite row_text_cons, <- app_assoc. cbn [app].
    rewrite read_field by discriminate.
    rewrite read_delimiter by apply before_terminator.
    rewrite IH, <- app_assoc. reflexivity.
Qed.

(** The text of a row that is not written as a lone quoted field
    starts with a character that does not end a line. *)
Lemma row_text_head (f : str) (rest : list str) :
  f :: rest <> [[]] ->
  exists c t, row_text (f :: rest) = c :: t /\ is_newline c = false.
Proof.
  intros Hne. cbn [row_text]. unfold fmt, join_append.
  cbn [Nat.ltb Nat.leb orb app].
  destruct (existsb special f) eqn:Hs.
  - eexists _, _. split; [reflexivity|]. reflexivity.
  - rewrite (escape_plain f Hs). destruct f as [|c f].
    + destruct rest as [|g rest]; [congruence|].
      eexists _, _. split; [reflexivity|]. reflexivity.
    + simpl in Hs. apply orb_false_iff in Hs. destruct Hs as [Hc _].
      apply special_false in Hc. destruct Hc as (_ & _ & Hcr & Hlf).
      eexists _, _. split; [reflexivity|].
      unfold is_newline. rewrite Hlf, Hcr. reflexivity.
Qed.

(** One written row is read back as one record, the row itself. *)
Lemma read_writerow (row : list str) (more : str) :
  read_all parse_reset (readlines (writerow row ++ more))
  = option_map (cons row) (read_all parse_reset (readlines more)).
Proof.
  destruct (list_eq_dec str_eq_dec row [[]]) as [->|Hne].
  - rewrite writerow_single_empty. cbn [app lineterminator].
    rewrite read_step by (reflexivity || discriminate). feed.
    rewrite read_step by (reflexivity || discriminate). feed.
    rewrite read_step by (reflexivity || discriminate). feed.
    rewrite read_LF. reflexivity.
  - rewrite (writerow_text row Hne). destruct row as [|f rest].
    + cbn [row_text app lineterminator].
      rewrite read_step by (reflexivity || discriminate). feed.
      rewrite read_LF. reflexivity.
    + rewrite <- app_assoc.
      etransitivity; [|exact (read_fields rest f [] more)].
      destruct (row_text_head f rest Hne) as (c & t & -> & Hc).
      cbn [app].
      assert ((c =? LF) = false) as Hlf
        by (unfold is_newline in Hc; apply orb_false_iff in Hc; tauto).
      rewrite !read_step by (assumption || (destruct t; discriminate)).
      feed. unfold is_newline in Hc. rewrite Hc. reflexivity.
Qed.

Local Transparent readlines read_all.

(** Written rows are read back as they were written. *)
Lemma read_written (records : list (list str)) :
  reader (readlines (flat_map writerow records)) = Some records.
Proof.
  unfold reader. induction records as [|row records IH].
  - reflexivity.
  - cbn [flat_map]. rewrite read_writerow, IH. reflexivity.
Qed.

End Reader.

(* ================================================================== *)
(** ** The CSV exports *)

(** A table that comes out of the extraction has headers or has no
    rows. *)
Lemma extracted_headers_or_no_rows (pdf_pages : list Page) (t : Table) :
  In t (extract_tables pdf_pages) -> headers t <> [] \/ rows t = [].
Proof.
  intros Ht.
  destruct (extract_tables_in _ _ Ht) as (_ & _ & raw & _ & _ & _ & Hh & Hr).
  rewrite Hh, Hr. unfold _normalize_table.
  destruct (header_or_blank raw) as [(i & hrow & H) | H].
  - left. rewrite (find_header_at raw i hrow H). cbn [n_headers].
    destruct H as (_ & (c & _ & Hin & _) & _).
    destruct hrow; [contradiction | discriminate].
  - right. rewrite (find_header_blank raw H). reflexivity.
Qed.

(** C9 (as amended): for a table that has headers, or that has no rows,
    exporting it to CSV and parsing the CSV back gives the same headers
    and the same rows, an absent cell coming back as the empty string. *)
Theorem C9_csv_round_trip (t : Table) :
  headers t <> [] \/ rows t = [] ->
  reparse (csv_text t) = Some (headers t, map (map csv_cell) (rows t)).
Proof.
  intros H. unfold reparse. rewrite csv_text_records, read_written.
  destruct (headers t) as [|h hs] eqn:E; [|reflexivity].
  destruct H as [H|H]; [congruence|]. rewrite H. reflexivity.
Qed.

Lemma C9_csv_round_trip_witness :
  (headers tricky_table <> [] \/ rows tricky_table = [])
  /\ reparse (csv_text tricky_table)
     = Some (headers tricky_table, map (map csv_cell) (rows tricky_table)).
Proof.
  assert (headers tricky_table <> [] \/ rows tricky_table = []) as H
    by (left; discriminate).
  split; [exact H | exact (C9_csv_round_trip tricky_table H)].
Defined.

(** The same round trip, computed. *)
Example round_trip_tricky :
  reparse (csv_text tricky_table)
  = Some ([py "a,b"; []; dq ++ py "q"],
          [[[10; 13] ++ py ",x"; []; py " y "]; []; [[]]]).
Proof. vm_compute. reflexivity. Qed.

(** C9 (as stated) fails: a table without headers is written without a
    header row, and its first data row is read back as the headers. *)
Lemma C9_counterexample :
  reparse (csv_text headerless_table) = Some ([py "a"], [])
  /\ reparse (csv_text headerless_table)
     <> Some (headers headerless_table,
              map (map csv_cell) (rows headerless_table)).
Proof.
  assert (reparse (csv_text headerless_table) = Some ([py "a"], [])) as E
    by (vm_compute; reflexivity).
  split; [exact E|]. rewrite E. discriminate.
Qed.

(** C10: for a stored table with empty headers both exports write no
    header row: the file is the text of the data rows, one record per
    row and nothing before them, and it is empty when the table has no
    rows either. *)
Theorem C10_no_header_row_without_headers (t : Table) :
  headers t = [] ->
  let body := flat_map Csv.writerow (map (map csv_cell) (rows t)) in
  csv_text t = body
  /\ Csv.reader (Csv.readlines (csv_text t)) = Some (map (map csv_cell) (rows t))
  /\ (rows t = [] -> csv_text t = [])
  /\ (forall rec pg ti,
        find_table (stored_tables rec) pg ti = Some t ->
        exists name, export_single_csv (Some rec) pg ti = OK (name, body))
  /\ (forall rec,
        In t (stored_tables rec) ->
        exists members,
          export_all_zip (Some rec) = OK members
          /\ In (fst (zip_member t), body) members).
Proof.
  intros Hh body.
  assert (csv_text t = body) as E
    by (subst body; rewrite csv_text_records, Hh; reflexivity).
  split; [exact E|]. split; [|split; [|split]].
  - rewrite E. apply read_written.
  - intros Hr. rewrite E. subst body. rewrite Hr. reflexivity.
  - intros rec pg ti Hf. unfold export_single_csv. rewrite Hf, E.
    eexists. reflexivity.
  - intros rec Hin. unfold export_all_zip. eexists. split; [reflexivity|].
    apply in_map_iff. exists t. split; [|exact Hin].
    unfold zip_member. rewrite E. reflexivity.
Qed.

Lemma C10_no_header_row_without_headers_witness :
  headers degenerate_table = []
  /\ csv_text degenerate_table = []
  /\ (exists name, export_single_csv (Some sample_upload) 1 1 = OK (name, []))
  /\ exists members,
       export_all_zip (Some sample_upload) = OK members
       /\ In (fst (zip_member degenerate_table), []) members.
Proof.
  destruct (C10_no_header_row_without_headers degenerate_table eq_refl)
    as (_ & _ & E & Hsingle & Hzip).
  split; [reflexivity|]. split; [exact (E eq_refl)|]. split.
  - exact (Hsingle sample_upload 1%nat 1%nat eq_refl).
  - exact (Hzip sample_upload ltac:(simpl; tauto)).
Defined.

(** The exports of the degenerate table, computed. *)
Example export_degenerate :
  export_single_csv (Some sample_upload) 1 1 = OK (py "tables_u1_p1_t1.csv", [])
  /\ nth_error (match export_all_zip (Some sample_upload) with
                | OK members => members
                | HTTP404 _ => []
                end) 2
     = Some (py "page_1_table_1.csv", []).
Proof. split; vm_compute; reflexivity. Qed.

(** The export of the scenario's table. *)
Example export_scenario :
  export_single_csv (Some sample_upload) 1 0
  = OK (py "tables_u1_p1_t0.csv", py "Name,Age" ++ [13; 10] ++ py "Ana,30"
                                   ++ [13; 10] ++ py "," ++ [13; 10]).
Proof. vm_compute. reflexivity. Qed.

(* ================================================================== *)
(** ** The library models on sample texts *)

(** [strip] removes the white space of [str.isspace] at both ends and
    none inside. *)
Example strip_sample :
  strip ([32; 31; 133; 160] ++ py "a b" ++ [12288; 9]) = py "a b".
Proof. vm_compute. reflexivity. Qed.

(** The file written for [tricky_table], quoting included. *)
Example csv_text_tricky :
  csv_text tricky_table
  = dq ++ py "a,b" ++ dq ++ py ",," ++ dq ++ dq ++ dq ++ py "q" ++ dq ++ [13; 10]
    ++ dq ++ [10; 13] ++ py ",x" ++ dq ++ py ",, y " ++ [13; 10]
    ++ [13; 10]
    ++ dq ++ dq ++ [13; 10].
Proof. vm_compute. reflexivity. Qed.

(** The reader on texts that no writer produces: text after a closing
    quote, a quoted field that is never closed, a carriage return inside
    a line, an empty line, a last line without terminator. *)
Example reader_samples :
  Csv.reader (Csv.readlines (dq ++ py "a" ++ dq ++ py "b,c" ++ [13; 10]))
  = Some [[py "ab"; py "c"]]
  /\ Csv.reader (Csv.readlines (dq ++ py "ab" ++ [13; 10]))
     = Some [[py "ab" ++ [13; 10]]]
  /\ Csv.reader (Csv.readlines (py "x" ++ [13] ++ py "y" ++ [10])) = None
  /\ Csv.reader (Csv.readlines (py "a" ++ [13; 10; 13; 10] ++ py "b"))
     = Some [[py "a"]; []; [py "b"]]
  /\ Csv.reader (Csv.readlines (py "a,b")) = Some [[py "a"; py "b"]].
Proof. repeat split; vm_compute; reflexivity. Qed.

(** The empty grid is a blank grid. *)
Example normalize_empty : _normalize_table [] = mkNorm [] [].
Proof. reflexivity. Qed.

(* ================================================================== *)
(** ** More on normalisation *)

Lemma lstrip_split (s : str) :
  exists pre, s = pre ++ lstrip s /\ Forall (fun c => isspace c = true) pre.
Proof.
  induction s as [|c s IH]; simpl.
  - exists []. split; [reflexivity | constructor].
  - destruct (isspace c) eqn:E.
    + destruct IH as (pre & Hs & Hpre). exists (c :: pre). split.
      * simpl. f_equal. exact Hs.
      * constructor; assumption.
    + exists []. split; [reflexivity | constructor].
Qed.

Lemma lstrip_head (s : str) (c : char) (r : str) :
  lstrip s = c :: r -> isspace c = false.
Proof.
  induction s as [|d s IH]; simpl; [discriminate|].
  destruct (isspace d) eqn:E; [exact IH|].
  intros H. inversion H; subst. exact E.
Qed.

Lemma lstrip_fixed (s : str) :
  match s with
  | [] => True
  | c :: _ => isspace c = false
  end ->
  lstrip s = s.
Proof. destruct s as [|c s]; simpl; [reflexivity|]. intros ->. reflexivity. Qed.

Lemma lstrip_lstrip (s : str) : lstrip (lstrip s) = lstrip s.
Proof.
  apply lstrip_fixed. destruct (lstrip s) as [|c r] eqn:E; [exact I|].
  eapply lstrip_head; eauto.
Qed.

(** Stripping a stripped string changes nothing. *)
Lemma strip_strip (s : str) : strip (strip s) = strip s.
Proof.
  unfold strip, rstrip.
  assert (lstrip (rev (lstrip (rev (lstrip s)))) = rev (lstrip (rev (lstrip s))))
    as E.
  { apply lstrip_fixed.
    destruct (lstrip_split (rev (lstrip s))) as (pre & Hs & _).
    apply (f_equal (@rev N)) in Hs. rewrite rev_involutive, rev_app_distr in Hs.
    destruct (rev (lstrip (rev (lstrip s)))) as [|c r] eqn:Eb; [exact I|].
    simpl in Hs. eapply lstrip_head; eauto. }
  rewrite E, rev_involutive, lstrip_lstrip. reflexivity.
Qed.

Lemma header_cell_stripped (c : cell) : strip (header_cell c) = header_cell c.
Proof. destruct c as [s|]; simpl; [apply strip_strip | reflexivity]. Qed.

Lemma clean_cell_idem (c : cell) : clean_cell (clean_cell c) = clean_cell c.
Proof.
  destruct c as [s|]; simpl; [|reflexivity].
  destruct (is_empty (strip s)) eqn:E; simpl; [reflexivity|].
  rewrite E. reflexivity.
Qed.

Lemma header_at_not_blank (raw : grid) (i : nat) (hrow : raw_row) :
  header_at raw i hrow -> ~ all_blank raw.
Proof.
  intros (Hn & (c & s & Hin & E & Hne) & _) Hall.
  apply Hne. apply (Hall hrow c s); auto. eapply nth_error_In; eauto.
Qed.

(** X1: the headers come out empty exactly when no row of the grid has
    a cell with non-blank trimmed content; and a table without headers
    has no rows. *)
Theorem X1_headers_empty_iff_blank (raw : grid) :
  (n_headers (_normalize_table raw) = [] <-> all_blank raw)
  /\ (n_headers (_normalize_table raw) = [] -> n_rows (_normalize_table raw) = []).
Proof.
  unfold _normalize_table.
  destruct (header_or_blank raw) as [(i & hrow & H) | H].
  - rewrite (find_header_at raw i hrow H). cbn [n_headers n_rows].
    assert (map header_cell hrow <> []) as Hne.
    { destruct H as (_ & (c & _ & Hin & _) & _).
      destruct hrow; [contradiction | discriminate]. }
    split; [split|]; intros H'.
    + contradiction.
    + exfalso. eapply header_at_not_blank; eauto.
    + contradiction.
  - rewrite (find_header_blank raw H). cbn [n_headers n_rows].
    split; [split|]; auto.
Qed.

(** X2: every header is stripped (stripping it again changes nothing),
    and when there are headers at least one of them is not empty. *)
Theorem X2_headers_stripped (raw : grid) :
  Forall (fun h => strip h = h) (n_headers (_normalize_table raw))
  /\ (n_headers (_normalize_table raw) <> [] ->
      Exists (fun h => h <> []) (n_headers (_normalize_table raw))).
Proof.
  unfold _normalize_table.
  destruct (header_or_blank raw) as [(i & hrow & H) | H].
  - rewrite (find_header_at raw i hrow H). cbn [n_headers]. split.
    + apply Forall_forall. intros h Hh. apply in_map_iff in Hh.
      destruct Hh as (c & <- & _). apply header_cell_stripped.
    + intros _. destruct H as (_ & (c & s & Hin & E & Hne) & _).
      apply Exists_exists. exists (strip s). split; [|exact Hne].
      apply in_map_iff. exists c. subst c. auto.
  - rewrite (find_header_blank raw H). cbn [n_headers]. split.
    + constructor.
    + intros Hne. contradiction.
Qed.

Lemma map_clean_idem (r : raw_row) :
  map clean_cell (map clean_cell r) = map clean_cell r.
Proof.
  rewrite map_map. apply map_ext. intros c. apply clean_cell_idem.
Qed.

(** X3: normalising the grid that spells out a normalised table (its
    headers as first row, then its rows) gives the same table again. *)
Theorem X3_normalize_idempotent (raw : grid) :
  _normalize_table (table_grid (_normalize_table raw)) = _normalize_table raw.
Proof.
  unfold _normalize_table at 2 3.
  destruct (header_or_blank raw) as [(i & hrow & H) | H].
  - rewrite (find_header_at raw i hrow H). unfold table_grid.
    cbn [n_headers n_rows]. unfold _normalize_table. cbn [find_header].
    assert (row_nonblank (map Some (map header_cell hrow)) = true) as Hnb.
    { destruct H as (_ & (c & s & Hin & E & Hne) & _).
      apply row_nonblank_true. exists (Some (strip s)), (strip s).
      split; [|split; [reflexivity|]].
      - apply in_map. apply in_map_iff. exists c. subst c. auto.
      - rewrite strip_strip. exact Hne. }
    rewrite Hnb. f_equal.
    + rewrite map_map. simpl. rewrite map_map.
      apply map_ext. intros c. apply header_cell_stripped.
    + rewrite map_map. apply map_ext. intros r. apply map_clean_idem.
  - rewrite (find_header_blank raw H). reflexivity.
Qed.

(* ================================================================== *)
(** ** More on the extraction loop *)

Lemma pages_from_length (pages : list Page) :
  forall p_idx,
    List.length (pages_from p_idx pages)
    = list_sum (map (fun p => List.length (snd (raw_tables_of p))) pages).
Proof.
  induction pages as [|p pages IH]; intros p_idx; simpl; [reflexivity|].
  rewrite length_app, IH. unfold tables_of_page.
  rewrite tables_from_length. reflexivity.
Qed.

(** X4: the number of tables of a document is the sum, over its pages,
    of the number of grids of the strategy that answered (the line
    strategy when it found any, else the defaults); a document on which
    neither strategy finds a grid gives no table at all. *)
Theorem X4_table_count (pdf_pages : list Page) :
  List.length (extract_tables pdf_pages)
  = list_sum (map (fun p => match or_nil (lines_tables p) with
                            | [] => List.length (or_nil (default_tables p))
                            | l => List.length l
                            end) pdf_pages)
  /\ (Forall (fun p => or_nil (lines_tables p) = []
                       /\ or_nil (default_tables p) = []) pdf_pages ->
      extract_tables pdf_pages = []).
Proof.
  assert (List.length (extract_tables pdf_pages)
          = list_sum (map (fun p => match or_nil (lines_tables p) with
                                    | [] => List.length (or_nil (default_tables p))
                                    | l => List.length l
                                    end) pdf_pages)) as E.
  { unfold extract_tables. rewrite pages_from_length. f_equal.
    apply map_ext. intros p. unfold raw_tables_of. simpl.
    destruct (or_nil (lines_tables p)); reflexivity. }
  split; [exact E|].
  intros Hall. apply length_zero_iff_nil. rewrite E. clear E.
  induction Hall as [|p pages [Hl Hd] _ IH]; [reflexivity|].
  cbn [map list_sum fold_right]. unfold list_sum in IH. rewrite IH, Hl, Hd.
  reflexivity.
Qed.

Lemma key_lt_irrefl (a : nat * nat) : ~ key_lt a a.
Proof. unfold key_lt. lia. Qed.

Lemma sorted_keys_NoDup (l : list (nat * nat)) :
  StronglySorted key_lt l -> NoDup l.
Proof.
  induction 1 as [|a l Hs IH Hall]; constructor; [|exact IH].
  intros Hin. rewrite Forall_forall in Hall.
  apply (key_lt_irrefl a). apply Hall. exact Hin.
Qed.

Lemma extract_keys_NoDup (pdf_pages : list Page) :
  NoDup (map key (extract_tables pdf_pages)).
Proof. apply sorted_keys_NoDup. apply pages_from_sorted. Qed.

(** In a list without repeated identities, looking a table up by its
    own identity finds that table. *)
Lemma find_table_own (l : list Table) (t : Table) :
  NoDup (map key l) -> In t l ->
  find_table l (page t) (table_index t) = Some t.
Proof.
  unfold find_table. induction l as [|u l IH]; intros Hnd Hin; [contradiction|].
  simpl in Hnd. inversion Hnd as [|? ? Hnotin Hnd']; subst.
  simpl. destruct Hin as [->|Hin].
  - rewrite !Nat.eqb_refl. reflexivity.
  - destruct ((page u =? page t)%nat && (table_index u =? table_index t)%nat) eqn:E.
    + exfalso. apply andb_true_iff in E. destruct E as [Ep Ei].
      apply Nat.eqb_eq in Ep, Ei. apply Hnotin.
      replace (key u) with (key t) by (unfold key; congruence).
      apply in_map. exact Hin.
    + apply IH; assumption.
Qed.

(** X5: no two tables of a document share page and index, so looking an
    extracted table up by its page and index, as the export does, finds
    that very table. *)
Theorem X5_lookup_finds_extracted (pdf_pages : list Page) (t : Table) :
  In t (extract_tables pdf_pages) ->
  NoDup (map key (extract_tables pdf_pages))
  /\ find_table (extract_tables pdf_pages) (page t) (table_index t) = Some t.
Proof.
  intros Hin. split; [apply extract_keys_NoDup|].
  apply find_table_own; [apply extract_keys_NoDup | exact Hin].
Qed.

Lemma X5_lookup_finds_extracted_witness :
  In (mkTable 2 0 [py "Name"; py "Age"]
              [[Some (py "Ana"); Some (py "30")]; [None; None]])
     (extract_tables sample_pdf)
  /\ find_table (extract_tables sample_pdf) 2 0
     = Some (mkTable 2 0 [py "Name"; py "Age"]
                     [[Some (py "Ana"); Some (py "30")]; [None; None]]).
Proof.
  assert (In (mkTable 2 0 [py "Name"; py "Age"]
                      [[Some (py "Ana"); Some (py "30")]; [None; None]])
             (extract_tables sample_pdf)) as H
    by (right; right; left; reflexivity).
  split; [exact H|].
  exact (proj2 (X5_lookup_finds_extracted sample_pdf _ H)).
Defined.

(* ================================================================== *)
(** ** More on the exports *)

(** The file of a table that has headers, or no rows, reads back as the
    table. *)
Lemma reparse_csv_text (t : Table) :
  headers t <> [] \/ rows t = [] ->
  reparse (csv_text t) = Some (headers t, map (map csv_cell) (rows t)).
Proof.
  intros H. unfold reparse. rewrite csv_text_records, read_written.
  destruct (headers t) as [|h hs] eqn:E; [|reflexivity].
  destruct H as [H|H]; [congruence|]. rewrite H. reflexivity.
Qed.

(** X7: when the stored tables are those of an extraction (an upload
    without cleanup), each table is served by the single-table export
    under its own page and index and is a member of the archive, both
    with the same file, and that file reads back as the table's headers
    and rows (absent cells as empty strings). *)
Theorem X7_extracted_tables_export_and_read_back
  (pdf_pages : list Page) (id : str) (t : Table) :
  In t (extract_tables pdf_pages) ->
  let rec := mkUpload id (extract_tables pdf_pages) in
  (exists name,
      export_single_csv (Some rec) (page t) (table_index t)
      = OK (name, csv_text t))
  /\ (exists members,
        export_all_zip (Some rec) = OK members
        /\ In (fst (zip_member t), csv_text t) members)
  /\ reparse (csv_text t) = Some (headers t, map (map csv_cell) (rows t)).
Proof.
  intros Hin rec. subst rec. split; [|split].
  - unfold export_single_csv. cbn [stored_tables].
    rewrite (find_table_own _ t (extract_keys_NoDup pdf_pages) Hin).
    eexists. reflexivity.
  - unfold export_all_zip. cbn [stored_tables]. eexists.
    split; [reflexivity|]. apply in_map_iff. exists t. split; [reflexivity|].
    exact Hin.
  - apply reparse_csv_text. eapply extracted_headers_or_no_rows. exact Hin.
Qed.

Lemma X7_extracted_tables_export_and_read_back_witness :
  In (mkTable 1 1 [] []) (extract_tables sample_pdf)
  /\ reparse (csv_text (mkTable 1 1 [] []))
     = Some (headers (mkTable 1 1 [] []),
             map (map csv_cell) (rows (mkTable 1 1 [] []))).
Proof.
  assert (In (mkTable 1 1 [] []) (extract_tables sample_pdf)) as H
    by (right; left; reflexivity).
  split; [exact H|].
  exact (proj2 (proj2 (X7_extracted_tables_export_and_read_back
                         sample_pdf (py "u1") _ H))).
Defined.

(* ------------------------------------------------------------------ *)
(** *** Member names *)

Lemma map_injective {A B} (f : A -> B) :
  (forall x y, f x = f y -> x = y) ->
  forall l l', map f l = map f l' -> l = l'.
Proof.
  intros Hf. induction l as [|x l IH]; intros [|y l'] H; simpl in H;
    try discriminate; [reflexivity|].
  inversion H. f_equal; auto.
Qed.

Lemma py_inj (a b : string) : py a = py b -> a = b.
Proof.
  unfold py. intros H. apply map_injective in H.
  - rewrite <- (string_of_list_ascii_of_string a),
            <- (string_of_list_ascii_of_string b), H.
    reflexivity.
  - intros x y E. rewrite <- (ascii_N_embedding x), <- (ascii_N_embedding y), E.
    reflexivity.
Qed.

Lemma decimal_inj (n m : nat) : decimal n = decimal m -> n = m.
Proof.
  unfold decimal. intros H. apply py_inj in H.
  apply Unsigned.to_uint_inj.
  assert (Some (Nat.to_uint n) = Some (Nat.to_uint m)) as E
    by (rewrite <- !NilEmpty.usu, H; reflexivity).
  inversion E. reflexivity.
Qed.

Lemma decimal_digits (n : nat) :
  Forall (fun c => is_digit c = true) (decimal n).
Proof.
  unfold decimal. generalize (Nat.to_uint n) as d.
  induction d; simpl; constructor; solve [reflexivity | assumption].
Qed.

(** Digits followed by a character that is not a digit: the digits are
    read off without ambiguity. *)
Lemma digits_then_sep (a : str) :
  forall a' b b' sep,
    Forall (fun c => is_digit c = true) a ->
    Forall (fun c => is_digit c = true) a' ->
    is_digit sep = false ->
    a ++ sep :: b = a' ++ sep :: b' ->
    a = a' /\ b = b'.
Proof.
  induction a as [|c a IH]; intros [|c' a'] b b' sep Ha Ha' Hsep H;
    simpl in H.
  - inversion H. auto.
  - inversion H; subst. inversion Ha'; subst. congruence.
  - inversion H; subst. inversion Ha; subst. congruence.
  - inversion H; subst. inversion Ha; inversion Ha'; subst.
    destruct (IH a' b b' sep) as [-> ->]; auto.
Qed.

Lemma zip_name_inj (t u : Table) :
  fst (zip_member t) = fst (zip_member u) -> key t = key u.
Proof.
  unfold zip_member, key. cbn [fst]. intros H.
  apply app_inv_head in H.
  change (py "_table_") with (95 :: py "table_") in H.
  cbn [app] in H.
  apply digits_then_sep in H;
    [|apply decimal_digits|apply decimal_digits|reflexivity].
  destruct H as [Hp H]. apply decimal_inj in Hp.
  apply app_inv_head in H.
  change (py ".csv") with (46 :: py "csv") in H.
  apply digits_then_sep in H;
    [|apply decimal_digits|apply decimal_digits|reflexivity].
  destruct H as [Hi _]. apply decimal_inj in Hi. congruence.
Qed.

Lemma NoDup_map_on {A B C} (f : A -> B) (g : A -> C) (l : list A) :
  (forall x y, f x = f y -> g x = g y) ->
  NoDup (map g l) -> NoDup (map f l).
Proof.
  intros Hfg. induction l as [|x l IH]; simpl; intros H; [constructor|].
  inversion H as [|? ? Hnotin Hnd]; subst. constructor; [|auto].
  intros Hin. apply Hnotin. apply in_map_iff in Hin.
  destruct Hin as (y & Hy & Hin). apply in_map_iff. exists y.
  split; [|exact Hin]. apply Hfg. exact Hy.
Qed.

(** X8: two members of the archive have the same name only if their
    tables have the same page and index; the archive has one member per
    stored table, an empty one for no tables; and for the tables of an
    extraction all member names are different. *)
Theorem X8_zip_member_names (rec : UploadRecord) :
  (forall t u, fst (zip_member t) = fst (zip_member u) ->
               page t = page u /\ table_index t = table_index u)
  /\ (exists members,
        export_all_zip (Some rec) = OK members
        /\ List.length members = List.length (stored_tables rec)
        /\ (NoDup (map key (stored_tables rec)) -> NoDup (map fst members)))
  /\ forall pdf_pages id members,
       export_all_zip (Some (mkUpload id (extract_tables pdf_pages))) = OK members ->
       NoDup (map fst members).
Proof.
  assert (forall l, NoDup (map key l) -> NoDup (map fst (map zip_member l))) as Hnd.
  { intros l H. rewrite map_map.
    apply (NoDup_map_on _ key); [|exact H]. intros x y. apply zip_name_inj. }
  split; [|split].
  - intros t u H. apply zip_name_inj in H. unfold key in H.
    inversion H. auto.
  - unfold export_all_zip. eexists. split; [reflexivity|].
    split; [apply length_map | apply Hnd].
  - intros pdf_pages id members H. unfold export_all_zip in H.
    cbn [stored_tables] in H. inversion H; subst.
    apply Hnd. apply extract_keys_NoDup.
Qed.

(* ------------------------------------------------------------------ *)
(** *** What the file keeps of a table *)

Lemma csv_text_csv_records (t : Table) :
  csv_text t = flat_map Csv.writerow (csv_records t).
Proof. rewrite csv_text_records. reflexivity. Qed.

Lemma csv_records_read (t : Table) :
  Csv.reader (Csv.readlines (csv_text t)) = Some (csv_records t).
Proof. rewrite csv_text_csv_records. apply read_written. Qed.

(** X9: two tables are exported to the same file exactly when they have
    the same records (the header row when there are headers, then the
    rows with absent cells as empty strings); so, among tables that have
    headers, the file determines the headers and, up to absent against
    empty cells, the rows. *)
Theorem X9_export_injective (t u : Table) :
  (csv_text t = csv_text u <-> csv_records t = csv_records u)
  /\ (headers t <> [] -> headers u <> [] ->
      (csv_text t = csv_text u
       <-> headers t = headers u
           /\ map (map csv_cell) (rows t) = map (map csv_cell) (rows u))).
Proof.
  assert (csv_text t = csv_text u <-> csv_records t = csv_records u) as E.
  { split; intros H.
    - pose proof (csv_records_read t) as Ht. rewrite H, csv_records_read in Ht.
      inversion Ht. reflexivity.
    - rewrite !csv_text_csv_records, H. reflexivity. }
  split; [exact E|]. intros Ht Hu. rewrite E. unfold csv_records.
  destruct (headers t) as [|h hs]; [congruence|].
  destruct (headers u) as [|k ks]; [congruence|].
  split; intros H.
  - inversion H. auto.
  - destruct H as [-> ->]. reflexivity.
Qed.

(* ================================================================== *)
(** ** More on the cleanup call *)

(** X10: whatever the service does, [clean_tables_with_ollama] returns
    either the tables it was given (the call failed) or the array that
    the answer decodes to, and nothing else. *)
Theorem X10_original_or_decoded_array
  (loads : str -> option json) (reply : post_outcome) (tables : list json) :
  (call_fails loads reply
   /\ clean_tables_with_ollama loads reply tables = tables)
  \/ (exists items,
        answers_array loads reply items
        /\ clean_tables_with_ollama loads reply tables = items).
Proof.
  destruct (fails_or_answers loads reply) as [H | (items & H)].
  - left. split; [exact H | apply clean_fails; exact H].
  - right. exists items. split; [exact H | apply clean_answers_array; exact H].
Qed.

(* ================================================================== *)
(** ** The upload *)

Section UploadFacts.

Variable lower : str -> str.
Variable loads : str -> option json.

Lemma maybe_clean_called (use_llm : bool) (reply : post_outcome) (tables : list json) :
  In CallOllama (fst (maybe_clean loads use_llm reply tables))
  <-> use_llm = true /\ tables <> [].
Proof.
  unfold maybe_clean. destruct use_llm, tables; simpl; split;
    try tauto; try (intros [H1 H2]; congruence).
  intros _. split; [reflexivity | discriminate].
Qed.

Lemma maybe_clean_result (use_llm : bool) (reply : post_outcome) (tables : list json) :
  ~ In CallOllama (fst (maybe_clean loads use_llm reply tables))
  \/ call_fails loads reply ->
  snd (maybe_clean loads use_llm reply tables) = tables.
Proof.
  unfold maybe_clean. destruct use_llm, tables; simpl; try reflexivity.
  intros [H|H]; [exfalso; apply H; auto|].
  apply clean_fails. exact H.
Qed.

Lemma maybe_clean_only (use_llm : bool) (reply : post_outcome) (tables : list json) :
  forall e, In e (fst (maybe_clean loads use_llm reply tables)) -> e = CallOllama.
Proof.
  unfold maybe_clean. destruct use_llm, tables; simpl; intros e H;
    try contradiction.
  destruct H as [<-|[]]. reflexivity.
Qed.

Lemma table_dicts_nil (l : list Table) : map table_dict l <> [] <-> l <> [].
Proof. destruct l; simpl; split; intros H; congruence. Qed.

End UploadFacts.

(** X11: no step of the upload runs to its end (nothing is saved,
    extracted or stored) exactly when the lower-cased file name does not
    end in [.pdf] or the uploaded bytes cannot be saved; the cleanup
    function is called exactly when the name is accepted, the bytes were
    saved, the extraction returned, the caller asked for cleanup and at
    least one table was found; and a record is added exactly when the
    upload answers with one. *)
Theorem X11_upload_effects
  (lower : str -> str) (loads : str -> option json)
  (filename : str) (use_llm : bool) (id : str) (saved : bool)
  (opened : option (list Page)) (reply : post_outcome) (committed : bool) :
  let run := upload_pdf lower loads filename use_llm id saved opened reply
                        committed in
  (fst run = []
   <-> endswith (lower filename) (py ".pdf") = false \/ saved = false)
  /\ (In CallOllama (fst run)
      <-> endswith (lower filename) (py ".pdf") = true
          /\ saved = true
          /\ use_llm = true
          /\ exists pages, opened = Some pages /\ extract_tables pages <> [])
  /\ (In AddRecord (fst run) <-> exists rec, snd run = Stored rec).
Proof.
  unfold upload_pdf.
  destruct (endswith (lower filename) (py ".pdf")) eqn:E; cbn [negb].
  2: { cbn [fst snd]. split; [tauto|]. split.
       - split; [intros [] | intros (H & _); discriminate].
       - split; [intros [] | intros (rec & H); discriminate]. }
  destruct saved; cbn [negb].
  2: { cbn [fst snd]. split; [tauto|]. split.
       - split; [intros [] | intros (_ & H & _); discriminate].
       - split; [intros [] | intros (rec & H); discriminate]. }
  destruct opened as [pages|].
  2: { cbn [fst snd In]. split.
       - split; [discriminate | intros [H|H]; discriminate].
       - split.
         + split.
           * intros [H|[]]; discriminate.
           * intros (_ & _ & _ & pages & H & _). discriminate.
         + split.
           * intros [H|[]]; discriminate.
           * intros (rec & H). discriminate. }
  pose proof (maybe_clean_called loads use_llm reply
                (map table_dict (extract_tables pages))) as Hc.
  pose proof (maybe_clean_only loads use_llm reply
                (map table_dict (extract_tables pages))) as Ho.
  destruct (maybe_clean loads use_llm reply (map table_dict (extract_tables pages)))
    as [called tables]. cbn [fst snd] in Hc, Ho.
  assert (In CallOllama called
          <-> true = true /\ true = true /\ use_llm = true
              /\ exists pages0, Some pages = Some pages0
                                /\ extract_tables pages0 <> []) as Hc'.
  { rewrite Hc. split.
    - intros [Hu Hne]. repeat split; auto. exists pages.
      split; [reflexivity|]. apply table_dicts_nil. exact Hne.
    - intros (_ & _ & Hu & pages' & Hp & Hne). inversion Hp; subst pages'.
      split; [exact Hu|]. apply table_dicts_nil. exact Hne. }
  destruct committed; cbn [fst snd app In].
  - split; [split; [discriminate | intros [H|H]; discriminate]|]. split.
    + rewrite <- Hc'. split.
      * intros [H|[H|H]]; try discriminate.
        apply in_app_or in H. destruct H as [H|[H|[]]]; [exact H | discriminate].
      * intros H. right. right. apply in_or_app. left. exact H.
    + split; [intros _; eexists; reflexivity|].
      intros _. right. right. apply in_or_app. right. left. reflexivity.
  - split; [split; [discriminate | intros [H|H]; discriminate]|]. split.
    + rewrite <- Hc'. split.
      * intros [H|[H|H]]; try discriminate. exact H.
      * intros H. right. right. exact H.
    + split.
      * intros [H|[H|H]]; try discriminate.
        discriminate (Ho _ H).
      * intros (rec & H). discriminate.
Qed.

(** X12: when the upload stores a record, the record carries the file
    name and the cleanup flag of the request and counts the tables it
    stores; and when the cleanup service was not called, or was called
    and failed, the tables stored are exactly those of the extraction. *)
Theorem X12_upload_stores_extraction
  (lower : str -> str) (loads : str -> option json)
  (filename : str) (use_llm : bool) (id : str) (saved : bool)
  (opened : option (list Page)) (reply : post_outcome) (committed : bool)
  (effects : list effect) (rec : NewUpload) :
  upload_pdf lower loads filename use_llm id saved opened reply committed
  = (effects, Stored rec) ->
  up_id rec = id /\ up_filename rec = filename /\ up_use_llm rec = use_llm
  /\ up_table_count rec = List.length (up_result rec)
  /\ exists pages,
       opened = Some pages
       /\ (~ In CallOllama effects \/ call_fails loads reply ->
           up_result rec = map table_dict (extract_tables pages)
           /\ up_table_count rec = List.length (extract_tables pages)).
Proof.
  unfold upload_pdf.
  destruct (endswith (lower filename) (py ".pdf")); cbn [negb];
    [|discriminate].
  destruct saved; cbn [negb]; [|discriminate].
  destruct opened as [pages|]; [|discriminate].
  pose proof (maybe_clean_result loads use_llm reply
                (map table_dict (extract_tables pages))) as Hr.
  destruct (maybe_clean loads use_llm reply (map table_dict (extract_tables pages)))
    as [called tables]. cbn [fst snd] in Hr.
  destruct committed; [|discriminate].
  intros H. inversion H; subst. cbn.
  repeat split; try reflexivity.
  exists pages. split; [reflexivity|]. intros Hcase.
  assert (tables = map table_dict (extract_tables pages)) as ->.
  { apply Hr. destruct Hcase as [Hn|Hf]; [left|right; exact Hf].
    intros Hin. apply Hn. right. right. apply in_or_app. left. exact Hin. }
  split; [reflexivity | apply length_map].
Qed.

Lemma X12_upload_stores_extraction_witness :
  exists effects rec,
    upload_pdf ascii_lower demo_loads (py "Report.PDF") true (py "u1")
               true (Some sample_pdf) PostRaises true
    = (effects, Stored rec)
    /\ up_table_count rec = List.length (up_result rec).
Proof.
  eexists _, _.
  assert (upload_pdf ascii_lower demo_loads (py "Report.PDF") true (py "u1")
                     true (Some sample_pdf) PostRaises true
          = ([WriteBytes; ExtractTables; CallOllama; AddRecord],
             Stored (mkNewUpload (py "u1") (py "Report.PDF") true 3
                                 (map table_dict (extract_tables sample_pdf)))))
    as H by reflexivity.
  split; [exact H|].
  exact (proj1 (proj2 (proj2 (proj2 (X12_upload_stores_extraction
                                       _ _ _ _ _ _ _ _ _ _ _ H))))).
Defined.

(** The upload of a file that is not named as a PDF; of one that is,
    with the cleanup asked for and the service down, and without the
    cleanup; and of one whose bytes cannot be saved. *)
Example upload_samples :
  upload_pdf ascii_lower demo_loads (py "notes.txt") true (py "u0")
             true (Some sample_pdf) PostRaises true
  = ([], Rejected 400 (py "Only PDF files are supported"))
  /\ fst (upload_pdf ascii_lower demo_loads (py "Report.PDF") true (py "u1")
                     true (Some sample_pdf) PostRaises true)
     = [WriteBytes; ExtractTables; CallOllama; AddRecord]
  /\ fst (upload_pdf ascii_lower demo_loads (py "Report.PDF") false (py "u1")
                     true (Some sample_pdf) PostRaises true)
     = [WriteBytes; ExtractTables; AddRecord]
  /\ upload_pdf ascii_lower demo_loads (py "x/y.pdf") true (py "u2")
                false (Some sample_pdf) PostRaises true
     = ([], SaveFailed).
Proof. repeat split; reflexivity. Qed.

(* ================================================================== *)
(** ** Files and pages, once more *)

Lemma tables_from_shift (raws : list grid) :
  forall p_idx t_idx k,
    tables_from (p_idx + k) t_idx raws
    = map (shift_page k) (tables_from p_idx t_idx raws).
Proof.
  induction raws as [|g raws IH]; intros p_idx t_idx k; simpl; [reflexivity|].
  rewrite IH. reflexivity.
Qed.

Lemma pages_from_shift (pages : list Page) :
  forall p_idx k,
    pages_from (p_idx + k) pages = map (shift_page k) (pages_from p_idx pages).
Proof.
  induction pages as [|p pages IH]; intros p_idx k; simpl; [reflexivity|].
  rewrite map_app. unfold tables_of_page. rewrite tables_from_shift.
  f_equal. apply (IH (S p_idx) k).
Qed.

Lemma pages_from_app (a b : list Page) :
  forall p_idx,
    pages_from p_idx (a ++ b)
    = pages_from p_idx a ++ pages_from (p_idx + List.length a) b.
Proof.
  induction a as [|p a IH]; intros p_idx; simpl.
  - rewrite Nat.add_0_r. reflexivity.
  - rewrite IH, <- app_assoc. do 2 f_equal. f_equal. lia.
Qed.

(** X14: the pages are processed independently: the tables of a
    document made of two parts are the tables of the first part followed
    by those of the second part, with the page numbers of the second
    part moved on by the number of pages of the first. *)
Theorem X14_pages_independent (a b : list Page) :
  extract_tables (a ++ b)
  = extract_tables a ++ map (shift_page (List.length a)) (extract_tables b).
Proof.
  unfold extract_tables. rewrite pages_from_app, pages_from_shift. reflexivity.
Qed.
